(** * Watermark removal for NotebookLM exported PDFs

    A shallow embedding of [src/pdf2ppt/watermark.py] (function
    [remove_watermark]) and the properties of its specification.

    The Python function talks to two libraries: PyMuPDF ([fitz]) for the
    document, its pages, the rasteriser and the vector drawing, and Pillow
    for reading pixels back.  The embedding keeps the code's own arithmetic
    and control flow and makes every library call explicit:

    - page units and colour channels are Python [float]s, that is IEEE-754
      binary64 numbers: they are Rocq's primitive [float]s, with the same
      rounding after every operation;
    - Python [int]s (pixel channels, image sizes, the column index, the
      page counter) are [Z];
    - the file system is a finite map from paths to files: PDFs,
      documents of other kinds, which [fitz.open] opens too, and files it
      rejects;
    - exceptions are an error monad over a [World] that holds the file
      system, the open document handles and the log of library calls;
    - what the rasteriser returns for a page and a clip, and whether the
      operating system lets [Document.save] write, are not decided by the
      code: they are the two variables of section [Remover]. *)

From Stdlib Require Import ZArith List Floats Lia.
From stdpp Require Import base option list gmap strings.
Import ListNotations.

#[local] Open Scope Z_scope.

(** ** Numbers *)

(** Python converts an [int] operand of a mixed [int]/[float] operation to
    [float] first.  [of_uint63] does so exactly for every [|z| < 2^53] and
    with rounding to nearest up to [2^63], which covers every image width
    and channel value. *)
Definition float_of_int (z : Z) : float :=
  if z <? 0 then PrimFloat.opp (PrimFloat.of_uint63 (Uint63.of_Z (- z)))
  else PrimFloat.of_uint63 (Uint63.of_Z z).

(** [range(n)]: empty when [n <= 0]. *)
Definition range (n : Z) : list Z := map Z.of_nat (seq 0 (Z.to_nat n)).

(** ** Geometry: [fitz.Rect] and [fitz.Matrix] *)

(** The fields are [fitz.Rect]'s [x0], [y0], [x1], [y1]. *)
Record Rect : Type := mkRect { rx0 : float; ry0 : float; rx1 : float; ry1 : float }.

Record Matrix : Type := mkMatrix
  { m_a : float; m_b : float; m_c : float; m_d : float; m_e : float; m_f : float }.

(** [fitz.Matrix(sx, sy)]: the scaling matrix. *)
Definition Matrix_scale (sx sy : float) : Matrix :=
  mkMatrix sx 0 0 sy 0 0.

Definition Color : Type := (float * float * float)%type.

(** ** Pages, documents, files *)

(** One [page.draw_rect(rect, color=..., fill=...)] call. *)
Record Drawing : Type := mkDrawing
  { d_rect : Rect; d_color : Color; d_fill : Color }.

(** A page: its [rect.width] and [rect.height], the content it came with
    (opaque to this code) and the rectangles drawn over it since, oldest
    first. *)
Record Page : Type := mkPage
  { pg_width : float; pg_height : float; pg_body : string;
    pg_drawn : list Drawing }.

(** An open [fitz.Document]: the name it was opened from, its pages and
    its [is_pdf].  PyMuPDF draws on and saves PDF documents only. *)
Record Document : Type := mkDoc
  { doc_name : string; doc_pages : list Page; doc_is_pdf : bool }.

(** An open PDF document. *)
Definition mkDocument (name : string) (pages : list Page) : Document :=
  mkDoc name pages true.

(** What a path can hold.  [fitz.open] does not ask for a PDF: it also
    opens images, text files, XPS and e-books as documents with pages that
    can be rasterised, and rejects only what it cannot read as any of
    these. *)
Inductive File : Type :=
| PdfFile (pages : list Page)      (* a PDF *)
| DocFile (pages : list Page)      (* a document that is not a PDF *)
| OtherFile (bytes : string).      (* a file [fitz.open] rejects *)

(** ** Images: what [Image.open(...)] and [img.load()] give *)

(** [img.width] and [img.height] are never negative; [img_at x y] lists
    the band values of the pixel at an in-range position: three values
    for the RGB images a pixmap encodes to, four with an alpha band.  For
    an image of a single band Pillow hands back the value itself, an
    [int] and not a tuple: a list of one value stands for it.  In a Pillow
    image every pixel has the same number of bands; the record does not
    ask for that, and the statements that need it say so. *)
Record Image : Type := mkImage
  { img_width : N; img_height : N; img_at : Z -> Z -> list Z }.

(** ** Exceptions *)

Inductive Exn : Type :=
| FileNotFoundError     (* fitz.open: no such file *)
| FileDataError         (* fitz.open: not a document *)
| RenderError           (* get_pixmap / tobytes / Image.open failed *)
| ZeroDivisionError     (* float division by zero *)
| IndexError            (* pixels[x, y] out of range *)
| TypeError             (* [:3] on an int *)
| ValueError            (* wrong number of values to unpack; draw_rect: "is no PDF" *)
| SaveError.            (* Document.save raised *)

Inductive Res (A : Type) : Type :=
| Ok (a : A)
| Raise (e : Exn).
Arguments Ok {A} a.
Arguments Raise {A} e.

(** ** The world outside the function *)

(** The library calls the function makes, in the order it makes them. *)
Inductive Call : Type :=
| COpen (path : string)
| CGetPixmap (page_no : nat) (m : Matrix) (clip : Rect)
| CDrawRect (page_no : nat) (d : Drawing)
| CSave (path : string)
| CClose (name : string).

Record World : Type := mkWorld
  { w_fs : gmap string File;       (* the file system *)
    w_open : list string;          (* documents opened and not closed *)
    w_writes : list string;        (* paths written, oldest first *)
    w_log : list Call }.           (* library calls, oldest first *)

Definition log_call (c : Call) (w : World) : World :=
  mkWorld (w_fs w) (w_open w) (w_writes w) (w_log w ++ [c]).

(** ** The exception-and-state monad *)

Definition M (A : Type) : Type := World -> World * Res A.

#[global] Instance M_ret : MRet M := fun A a w => (w, Ok a).
#[global] Instance M_bind : MBind M := fun A B f m w =>
  match m w with
  | (w', Ok a) => f a w'
  | (w', Raise e) => (w', Raise e)
  end.

Definition raise {A : Type} (e : Exn) : M A := fun w => (w, Raise e).
Definition call (c : Call) : M unit := fun w => (log_call c w, Ok tt).

(** A [for] loop that threads a value through its body and stops at the
    first exception. *)
Fixpoint for_each {A B : Type} (body : B -> A -> M B) (xs : list A) (b : B) : M B :=
  match xs with
  | [] => mret b
  | x :: xs' => b' ← body b x; for_each body xs' b'
  end.

(** ** The function, over the two things the code does not decide *)

(** What [Document.save] can come to: the file is written, or the call
    raises and leaves the destination untouched ([None]) or holding
    whatever bytes were written before the failure. *)
Inductive SaveOutcome : Type :=
| Saved
| SaveFailed (left_behind : option string).

(** The value returned: the dict with its one key. *)
Record Result : Type := mkResult { pages_processed : Z }.

Section Remover.

(** Lines 38-40 as one step: [page.get_pixmap(matrix=m, clip=r)], the PNG
    encoding of the pixmap and [Image.open] on it.  [None] when any of the
    three raises. *)
Variable render : Page -> Matrix -> Rect -> option Image.

(** Whether the system lets [doc.save(path)] go through. *)
Variable save_outcome : Document -> string -> SaveOutcome.

(** *** Library calls *)

(** [fitz.open(path)] *)
Definition fitz_open (path : string) : M Document := fun w =>
  let w := log_call (COpen path) w in
  match w_fs w !! path with
  | None => (w, Raise FileNotFoundError)
  | Some (OtherFile _) => (w, Raise FileDataError)
  | Some (PdfFile pages) =>
      (mkWorld (w_fs w) (path :: w_open w) (w_writes w) (w_log w),
       Ok (mkDoc path pages true))
  | Some (DocFile pages) =>
      (mkWorld (w_fs w) (path :: w_open w) (w_writes w) (w_log w),
       Ok (mkDoc path pages false))
  end.

(** [Image.open(io.BytesIO(page.get_pixmap(matrix=m, clip=r).tobytes("png")))] *)
Definition strip_image (i : nat) (pg : Page) (m : Matrix) (clip : Rect) : M Image :=
  call (CGetPixmap i m clip);;
  match render pg m clip with
  | Some img => mret img
  | None => raise RenderError
  end.

(** [pixels[x, y]] for the non-negative indices the code uses. *)
Definition getpixel (img : Image) (x y : Z) : M (list Z) :=
  if (0 <=? x) && (x <? Z.of_N (img_width img))
     && (0 <=? y) && (y <? Z.of_N (img_height img))
  then mret (img_at img x y)
  else raise IndexError.

(** [page.draw_rect(r, color=color, fill=fill)] on page number [i] of a
    document whose [is_pdf] is [pdf].  On a page of a PDF the library
    takes any rectangle, on the page or off it, and colour components
    between 0 and 1, which is what 8-bit channels over 255 are; on a page
    of any other document it raises ValueError ("is no PDF"). *)
Definition draw_rect (pdf : bool) (i : nat) (pg : Page) (r : Rect) (color fill : Color) :
    M Page :=
  let d := mkDrawing r color fill in
  call (CDrawRect i d);;
  if pdf
  then mret (mkPage (pg_width pg) (pg_height pg) (pg_body pg) (pg_drawn pg ++ [d]))
  else raise ValueError.

(** [doc.save(path)]: refused, with nothing written, for a document that
    is not a PDF. *)
Definition doc_save (doc : Document) (path : string) : M unit := fun w =>
  let w := log_call (CSave path) w in
  if doc_is_pdf doc then
    match save_outcome doc path with
    | Saved =>
        (mkWorld (<[path := PdfFile (doc_pages doc)]> (w_fs w)) (w_open w)
                 (w_writes w ++ [path]) (w_log w), Ok tt)
    | SaveFailed None => (w, Raise SaveError)
    | SaveFailed (Some bytes) =>
        (mkWorld (<[path := OtherFile bytes]> (w_fs w)) (w_open w)
                 (w_writes w ++ [path]) (w_log w), Raise SaveError)
    end
  else (w, Raise SaveError).

Fixpoint remove_first (name : string) (l : list string) : list string :=
  match l with
  | [] => []
  | n :: l' => if decide (n = name) then l' else n :: remove_first name l'
  end.

(** [doc.close()] *)
Definition doc_close (doc : Document) : M unit := fun w =>
  let w := log_call (CClose (doc_name doc)) w in
  (mkWorld (w_fs w) (remove_first (doc_name doc) (w_open w)) (w_writes w) (w_log w),
   Ok tt).

(** *** Lines 31-37: the two rectangles

    Nothing is detected here, whatever the module's docstring says
    ("detect and cover"): the rectangle is a fixed offset from the
    bottom-right corner of the page. *)

Definition watermark_rect (pg : Page) : Rect :=
  let wm_x1 := (pg_width pg - 115)%float in
  let wm_y1 := (pg_height pg - 30)%float in
  let wm_x2 := (pg_width pg - 5)%float in
  let wm_y2 := (pg_height pg - 5)%float in
  mkRect wm_x1 wm_y1 wm_x2 wm_y2.

Definition sample_rect (pg : Page) : Rect :=
  let wm := watermark_rect pg in
  mkRect (rx0 wm) (ry0 wm - 10)%float (rx1 wm) (ry0 wm - 2)%float.

(** *** Lines 45-50: one column *)

(** [c / 255] for an [int] channel value. *)
Definition normalize (c : Z) : float := (float_of_int c / 255)%float.

Definition col_rect (wm : Rect) (col_width : float) (x : Z) : Rect :=
  mkRect (rx0 wm + float_of_int x * col_width)%float (ry0 wm)
         (rx0 wm + float_of_int (x + 1) * col_width)%float (ry1 wm).

(** [r, g, b = (c / 255 for c in pixels[x, img.height // 2][:3])] and the
    [draw_rect] of the column.  The slice raises TypeError on the [int] of
    a single-band image; the unpacking raises ValueError unless the slice
    has three values. *)
Definition draw_column (pdf : bool) (i : nat) (img : Image) (wm : Rect)
    (col_width : float) (pg : Page) (x : Z) : M Page :=
  px ← getpixel img x (Z.of_N (img_height img) / 2);
  match px with
  | [_] => raise TypeError
  | _ =>
      match take 3 px with
      | [cr; cg; cb] =>
          let r := normalize cr in
          let g := normalize cg in
          let b := normalize cb in
          draw_rect pdf i pg (col_rect wm col_width x) (r, g, b) (r, g, b)
      | _ => raise ValueError
      end
  end.

(** *** Lines 28-50: one page *)

(** The body of the loop on page number [i] of a document whose [is_pdf]
    is [pdf]. *)
Definition process_page_in (pdf : bool) (i : nat) (pg : Page) : M Page :=
  let wm := watermark_rect pg in
  img ← strip_image i pg (Matrix_scale 2 2) (sample_rect pg);
  if (img_width img =? 0)%N then raise ZeroDivisionError
  else
    let col_width :=
      ((rx1 wm - rx0 wm) / float_of_int (Z.of_N (img_width img)))%float in
    for_each (draw_column pdf i img wm col_width) (range (Z.of_N (img_width img))) pg.

(** The same on a page of a PDF, which is what the function is for. *)
Definition process_page (i : nat) (pg : Page) : M Page := process_page_in true i pg.

(** *** Lines 24-56 *)

(** The body of [for page in doc]: the pages done so far and the counter. *)
Definition page_step (pdf : bool) (acc : list Page * Z) (ip : nat * Page) :
    M (list Page * Z) :=
  pg' ← process_page_in pdf ip.1 ip.2;
  mret (acc.1 ++ [pg'], acc.2 + 1).

Definition enumerate {A : Type} (l : list A) : list (nat * A) :=
  combine (seq 0 (length l)) l.

Definition remove_watermark (input_path output_path : string) : M Result :=
  doc ← fitz_open input_path;
  acc ← for_each (page_step (doc_is_pdf doc)) (enumerate (doc_pages doc)) ([], 0);
  doc_save (mkDoc (doc_name doc) acc.1 (doc_is_pdf doc)) output_path;;
  doc_close doc;;
  mret (mkResult acc.2).

(** *** What a page comes to, read off its strip's image

    The definitions below describe outcomes; the theorems relate them to
    the code above. *)

(** The colour of column [x]: the pixel at column [x] and row
    [img.height // 2], its first three channels, each over 255. *)
Definition sampled_color (img : Image) (x : Z) : Color :=
  let px := img_at img x (Z.of_N (img_height img) / 2) in
  (normalize (nth 0 px 0), normalize (nth 1 px 0), normalize (nth 2 px 0)).

Definition column_drawing (img : Image) (wm : Rect) (col_width : float) (x : Z) : Drawing :=
  mkDrawing (col_rect wm col_width x) (sampled_color img x) (sampled_color img x).

Definition col_width_of (pg : Page) (img : Image) : float :=
  ((rx1 (watermark_rect pg) - rx0 (watermark_rect pg))
   / float_of_int (Z.of_N (img_width img)))%float.

(** The rectangles that cover the watermark, left to right. *)
Definition cover (pg : Page) (img : Image) : list Drawing :=
  map (column_drawing img (watermark_rect pg) (col_width_of pg img))
      (range (Z.of_N (img_width img))).

Definition add_drawings (pg : Page) (ds : list Drawing) : Page :=
  mkPage (pg_width pg) (pg_height pg) (pg_body pg) (pg_drawn pg ++ ds).

(** Column [x] can be read: the pixel is in range and has three channels. *)
Definition column_ok (img : Image) (x : Z) : bool :=
  (0 <=? x) && (x <? Z.of_N (img_width img))
  && (0 <=? Z.of_N (img_height img) / 2)
  && (Z.of_N (img_height img) / 2 <? Z.of_N (img_height img))
  && (3 <=? length (img_at img x (Z.of_N (img_height img) / 2)))%nat.

(** The strip of a page rasterises to an image with at least one column,
    every column of which can be read. *)
Definition strip_ok (pg : Page) : bool :=
  match render pg (Matrix_scale 2 2) (sample_rect pg) with
  | Some img =>
      negb (img_width img =? 0)%N
      && forallb (column_ok img) (range (Z.of_N (img_width img)))
  | None => false
  end.

Definition covered_page (pg : Page) : Page :=
  match render pg (Matrix_scale 2 2) (sample_rect pg) with
  | Some img => add_drawings pg (cover pg img)
  | None => pg
  end.

(** The library calls made for page number [i] when its strip is fine. *)
Definition page_calls (ip : nat * Page) : list Call :=
  CGetPixmap ip.1 (Matrix_scale 2 2) (sample_rect ip.2)
  :: match render ip.2 (Matrix_scale 2 2) (sample_rect ip.2) with
     | Some img => map (CDrawRect ip.1) (cover ip.2 img)
     | None => []
     end.

End Remover.

(** ** Helpers for statements *)

Definition add_log (w : World) (cs : list Call) : World :=
  mkWorld (w_fs w) (w_open w) (w_writes w) (w_log w ++ cs).

(** A world with nothing in it, to read off the calls a computation makes. *)
Definition blank : World := mkWorld ∅ [] [] [].

(** A computation that only adds to the log, and does the same whatever
    the world. *)
Definition log_only {A : Type} (m : M A) : Prop :=
  forall w, m w = (add_log w (w_log (m blank).1), (m blank).2).

Definition rect_width (r : Rect) : float := (rx1 r - rx0 r)%float.
Definition rect_height (r : Rect) : float := (ry1 r - ry0 r)%float.

(** The exceptions raised while a page is processed. *)
Definition page_exn (e : Exn) : bool :=
  match e with
  | RenderError | ZeroDivisionError | IndexError | TypeError | ValueError => true
  | _ => false
  end.

(** A number between 0 and 1. *)
Definition unit_interval (f : float) : bool := (0 <=? f)%float && (f <=? 1)%float.

(** A page narrower than 115 units. *)
Definition narrow (pg : Page) : bool := (pg_width pg <? 115)%float.

(** ** A stand-in backend and inputs for the examples *)

(** A strip of uniform background (0.9, 0.9, 0.95): [230, 230, 242] in
    8-bit RGB. *)
Definition uniform_strip (columns rows : N) : Image :=
  mkImage columns rows (fun _ _ => [230; 230; 242]).

(** A rasteriser over uniform pages.  A page at least 115 units wide holds
    the whole 110 x 8 strip: 220 x 16 pixels at scale 2.  Of a narrower
    page only part of the strip lies on the page (here 190 columns, as for
    a page 100 units wide); a page under 5 units wide holds none of it and
    rasterising fails. *)
Definition stub_render (pg : Page) (m : Matrix) (clip : Rect) : option Image :=
  if (pg_width pg <? 5)%float then None
  else if (pg_width pg <? 115)%float then Some (uniform_strip 190 16)
  else Some (uniform_strip 220 16).

Definition always_saved (doc : Document) (path : string) : SaveOutcome := Saved.

(** A save that fails part way (a full disk, a write error), with the
    start of the file already at the destination. *)
Definition interrupted_save (doc : Document) (path : string) : SaveOutcome :=
  SaveFailed (Some "%PDF-1.7").

Definition letter_page : Page := mkPage 612 792 "letter" [].
Definition narrow_page : Page := mkPage 100 792 "narrow" [].
Definition sliver_page : Page := mkPage 3 792 "sliver" [].

Definition world_with (pages : list Page) : World :=
  mkWorld {[ "in.pdf" := PdfFile pages ]} [] [] [].

(** A page 2^100 units wide. *)
Definition huge_page : Page := mkPage 0x1p+100 792 "huge" [].

(** An A4 page with its size in single precision, which is how MuPDF
    holds page boxes: 595.276 by 841.89 units come out as
    595.2760009765625 = 9753002 / 2^14 and 841.8900146484375 =
    13793526 / 2^14. *)
Definition a4_page : Page := mkPage 0x1.29a354p+9 0x1.a4f1ecp+9 "a4" [].

(** A page 100.5 units wide and 7.3 units high in single precision
    (7.30000019073486328125 = 15309210 / 2^21). *)
Definition small_page : Page := mkPage 100.5 0x1.d33334p+2 "small" [].

(** A page whose height is the binary64 number nearest to 7.3, which has
    53 significant bits and is no single-precision number. *)
Definition short_page : Page := mkPage 612 0x1.d333333333333p+2 "short" [].

(** A page of whole-unit size. *)
Definition whole_unit_page (wn hn : Z) (body : string) (drawn : list Drawing) : Page :=
  mkPage (float_of_int wn) (float_of_int hn) body drawn.

(** A world whose input is a scanned page kept as an image, which
    [fitz.open] opens as a one-page document that is not a PDF. *)
Definition scan_world : World :=
  mkWorld {[ "scan.png" := DocFile [letter_page] ]} [] [] [].

(** A second world with the same input file among other things. *)
Definition busy_world (pages : list Page) : World :=
  mkWorld (<[ "notes.txt" := OtherFile "n" ]> {[ "in.pdf" := PdfFile pages ]})
          ["other.pdf"] ["notes.txt"] [COpen "other.pdf"].

(** ** Sentences of the specification, as they are written *)

(** "A page narrower than 115 units does not crash the operation (policy:
    skip drawing for that page, still counted as processed)." *)
Definition narrow_pages_skipped
    (render : Page -> Matrix -> Rect -> option Image)
    (save_outcome : Document -> string -> SaveOutcome)
    (inp out : string) (w : World) : Prop :=
  forall pages,
    w_fs w !! inp = Some (PdfFile pages) ->
    Exists (fun pg => narrow pg = true) pages ->
    exists w' pages',
      remove_watermark render save_outcome inp out w =
        (w', Ok (mkResult (Z.of_nat (length pages))))
      /\ w_fs w' !! out = Some (PdfFile pages')
      /\ Forall2 (fun pg pg' => narrow pg = true -> pg_drawn pg' = pg_drawn pg)
                 pages pages'.

(** "If remove_watermark fails [...] no file is created or modified at
    outputPath": whenever the call raises, the output path holds what it
    held before the call. *)
Definition output_kept_on_failure
    (render : Page -> Matrix -> Rect -> option Image)
    (save_outcome : Document -> string -> SaveOutcome)
    (inp out : string) (w : World) : Prop :=
  forall e,
    (remove_watermark render save_outcome inp out w).2 = Raise e ->
    w_fs (remove_watermark render save_outcome inp out w).1 !! out = w_fs w !! out.

(** "The source document handle [...] released on all exit paths
    (including error paths)": the handles open after the call are those
    open before it. *)
Definition released_on_exit
    (render : Page -> Matrix -> Rect -> option Image)
    (save_outcome : Document -> string -> SaveOutcome)
    (inp out : string) (w : World) : Prop :=
  w_open (remove_watermark render save_outcome inp out w).1 = w_open w.

(** The watermark rectangle is exactly 110 by 25, of positive width, and
    the strip exactly 110 by 8. *)
Definition fixed_extents (pg : Page) : bool :=
  (rect_width (watermark_rect pg) =? 110)%float
  && (rect_height (watermark_rect pg) =? 25)%float
  && (0 <? rect_width (watermark_rect pg))%float
  && (rect_width (sample_rect pg) =? 110)%float
  && (rect_height (sample_rect pg) =? 8)%float.

(** ** Binary64 numbers on a binary grid *)

(** [m * 2^j] on binary positives: [j] zero bits appended. *)
Definition pshl (m : positive) (j : nat) : positive := Nat.iter j xO m.

(** The binary64 number [n / 2^k], as the IEEE-754 specification of the
    standard library builds it from a mantissa and an exponent (rounded to
    nearest if [n] has more than 53 bits). *)
Definition dyadic (n k : Z) : spec_float := binary_normalize prec emax n (- k) false.

(** The float [f] is the number [n / 2^k]. *)
Definition is_dyadic (f : float) (n k : Z) : Prop := Prim2SF f = dyadic n k.

(** The mantissa and the exponent of [n / 2^k] as a binary64 number, for
    [n] of at most 53 bits: the bits of [n] shifted up to 53 digits. *)
Definition dyadic_mantissa (n : Z) : positive :=
  let m := Z.to_pos (Z.abs n) in
  pshl m (Z.to_nat (prec - Z.pos (digits2_pos m))).

Definition dyadic_exponent (n k : Z) : Z :=
  - k + Z.pos (digits2_pos (Z.to_pos (Z.abs n))) - prec.

(** [check k], [check (k+1)], ... for [count] numbers. *)
Fixpoint all_from (check : Z -> bool) (k : Z) (count : nat) : bool :=
  match count with
  | O => true
  | S count' => check k && all_from check (k + 1) count'
  end.

(** ** Helpers for the further properties *)

(** The page a call works on, for the calls made page by page. *)
Definition call_page (c : Call) : option nat :=
  match c with
  | CGetPixmap i _ _ | CDrawRect i _ => Some i
  | _ => None
  end.

(** Channel value [c1] below [c2] gives a smaller number. *)
Definition normalize_ordered (c1 c2 : Z) : bool :=
  (c2 <=? c1) || (normalize c1 <? normalize c2)%float.

(** With 220 columns on a page [wn] whole units wide, the column width
    is 0.5, the first column starts at [wn - 115] and the last ends at
    [wn - 5], all exact in binary64. *)
Definition nominal_check (wn : Z) : bool :=
  let pg := whole_unit_page wn 0 "" [] in
  let wm := watermark_rect pg in
  let cw := col_width_of pg (uniform_strip 220 16) in
  (cw =? 0.5)%float
  && (rx0 (col_rect wm cw 0) =? float_of_int (wn - 115))%float
  && (rx1 (col_rect wm cw 219) =? float_of_int (wn - 5))%float.

(** An RGBA strip and an RGB strip with the same colours. *)
Definition rgba_strip (columns rows : N) : Image :=
  mkImage columns rows (fun x y => [230; 230; 242; (x + y) mod 256]).

(** A grey-scale strip: one band. *)
Definition grey_strip (columns rows : N) : Image :=
  mkImage columns rows (fun _ _ => [230]).

(** A rasteriser that gives the same image for every page. *)
Definition const_render (img : Image) (pg : Page) (m : Matrix) (clip : Rect) : option Image :=
  Some img.

(** A rectangle that lies on the page, which runs from (0, 0) to
    (width, height). *)
Definition rect_within_page (r : Rect) (pg : Page) : bool :=
  (0 <=? rx0 r)%float && (rx1 r <=? pg_width pg)%float
  && ((0 <=? ry0 r)%float && (ry1 r <=? pg_height pg)%float).

(** For [wn] whole units of width: both rectangles are on the page
    horizontally exactly when [wn >= 115]. *)
Definition within_x_check (wn : Z) : bool :=
  let pg := whole_unit_page wn 0 "" [] in
  Bool.eqb ((0 <=? rx0 (sample_rect pg))%float
            && (rx1 (sample_rect pg) <=? pg_width pg)%float) (115 <=? wn)
  && Bool.eqb ((0 <=? rx0 (watermark_rect pg))%float
               && (rx1 (watermark_rect pg) <=? pg_width pg)%float) (115 <=? wn).

(** For [hn] whole units of height: the strip is on the page vertically
    exactly when [hn >= 40], the watermark rectangle when [hn >= 30], and
    the strip ends above the rectangle's top edge. *)
Definition within_y_check (hn : Z) : bool :=
  let pg := whole_unit_page 0 hn "" [] in
  Bool.eqb ((0 <=? ry0 (sample_rect pg))%float
            && (ry1 (sample_rect pg) <=? pg_height pg)%float) (40 <=? hn)
  && Bool.eqb ((0 <=? ry0 (watermark_rect pg))%float
               && (ry1 (watermark_rect pg) <=? pg_height pg)%float) (30 <=? hn)
  && (ry0 (sample_rect pg) <? ry1 (sample_rect pg))%float
  && (ry1 (sample_rect pg) <? ry0 (watermark_rect pg))%float
  && (ry0 (watermark_rect pg) <? ry1 (watermark_rect pg))%float.

(** * Properties *)

(** ** The monad *)

Lemma bind_run {A B : Type} (m : M A) (f : A -> M B) (w : World) :
  (m ≫= f) w =
  match m w with
  | (w', Ok a) => f a w'
  | (w', Raise e) => (w', Raise e)
  end.
Proof. reflexivity. Qed.

Lemma add_log_nil (w : World) : add_log w [] = w.
Proof. destruct w; unfold add_log; simpl. by rewrite app_nil_r. Qed.

Lemma add_log_app (w : World) (a b : list Call) :
  add_log (add_log w a) b = add_log w (a ++ b).
Proof. unfold add_log; simpl. by rewrite app_assoc. Qed.

Lemma log_call_add_log (c : Call) (w : World) : log_call c w = add_log w [c].
Proof. reflexivity. Qed.

Lemma log_only_ret {A : Type} (a : A) : log_only (mret a : M A).
Proof. intros w. cbn. by rewrite add_log_nil. Qed.

Lemma log_only_raise {A : Type} (e : Exn) : log_only (raise e : M A).
Proof. intros w. cbn. by rewrite add_log_nil. Qed.

Lemma log_only_call (c : Call) : log_only (call c).
Proof. intros w. reflexivity. Qed.

Lemma log_only_bind {A B : Type} (m : M A) (f : A -> M B) :
  log_only m -> (forall a, log_only (f a)) -> log_only (m ≫= f).
Proof.
  intros Hm Hf w.
  rewrite !bind_run, (Hm w).
  destruct (m blank) as [wb [a | e]] eqn:Eb; simpl.
  - rewrite (Hf a (add_log w (w_log wb))), (Hf a wb).
    rewrite add_log_app. simpl.
    replace wb with (add_log blank (w_log wb)) at 3.
    + reflexivity.
    + specialize (Hm blank). rewrite Eb in Hm. simpl in Hm. congruence.
  - reflexivity.
Qed.

Lemma for_each_cons {A B : Type} (body : B -> A -> M B) x xs b w :
  for_each body (x :: xs) b w =
  match body b x w with
  | (w', Ok b') => for_each body xs b' w'
  | (w', Raise e) => (w', Raise e)
  end.
Proof. reflexivity. Qed.

Lemma log_only_for_each {A B : Type} (body : B -> A -> M B) (xs : list A) :
  (forall b x, log_only (body b x)) -> forall b, log_only (for_each body xs b).
Proof.
  intros Hbody. induction xs as [| x xs IH]; intros b; simpl.
  - apply log_only_ret.
  - apply log_only_bind; auto.
Qed.

Create HintDb log_only.
#[export] Hint Resolve log_only_ret log_only_raise log_only_call
  log_only_bind log_only_for_each : log_only.

(** A computation that only logs leaves files, handles and writes alone. *)
Lemma log_only_quiet {A : Type} (m : M A) (w : World) :
  log_only m ->
  w_fs (m w).1 = w_fs w /\ w_open (m w).1 = w_open w
  /\ w_writes (m w).1 = w_writes w
  /\ w_log (m w).1 = w_log w ++ w_log (m blank).1.
Proof. intros H. rewrite (H w). simpl. auto. Qed.

Section Properties.

Variable render : Page -> Matrix -> Rect -> option Image.
Variable save_outcome : Document -> string -> SaveOutcome.

(** ** One column *)

Lemma draw_column_ok i img wm cw pg x w :
  column_ok img x = true ->
  draw_column true i img wm cw pg x w =
  (add_log w [CDrawRect i (column_drawing img wm cw x)],
   Ok (add_drawings pg [column_drawing img wm cw x])).
Proof.
  unfold column_ok. intros H.
  apply andb_prop in H as [Hrange Hlen].
  apply Nat.leb_le in Hlen.
  unfold draw_column, getpixel, column_drawing, sampled_color.
  rewrite bind_run, Hrange. cbn [mret M_ret].
  destruct (img_at img x (Z.of_N (img_height img) / 2))
    as [| a [| b [| c rest]]]; simpl in Hlen; try lia.
  reflexivity.
Qed.

Lemma draw_column_raises pdf i img wm cw pg x w :
  column_ok img x = false ->
  exists e, draw_column pdf i img wm cw pg x w = (w, Raise e).
Proof.
  unfold column_ok, draw_column, getpixel. intros H. rewrite bind_run.
  destruct ((0 <=? x) && (x <? Z.of_N (img_width img))
            && (0 <=? Z.of_N (img_height img) / 2)
            && (Z.of_N (img_height img) / 2 <? Z.of_N (img_height img))) eqn:Hrange.
  - rewrite ?Hrange, andb_true_l in H. apply Nat.leb_gt in H. cbn [mret M_ret].
    destruct (img_at img x (Z.of_N (img_height img) / 2))
      as [| a [| b [| c rest]]]; simpl in H; try lia.
    + by exists ValueError.
    + by exists TypeError.
    + by exists ValueError.
  - cbn. by exists IndexError.
Qed.

(** On a page of a document that is not a PDF no column gets through: the
    pixel cannot be read, or [draw_rect] raises. *)
Lemma draw_column_not_pdf i img wm cw pg x w :
  exists w' e, draw_column false i img wm cw pg x w = (w', Raise e).
Proof.
  unfold draw_column, getpixel. rewrite bind_run.
  destruct (_ && _); cbn [mret M_ret raise]; [| by eexists _, _].
  destruct (img_at img x (Z.of_N (img_height img) / 2))
    as [| a [| b [| c rest]]]; by eexists _, _.
Qed.

Lemma draw_columns_ok i img wm cw xs : forall pg w,
  forallb (column_ok img) xs = true ->
  for_each (draw_column true i img wm cw) xs pg w =
  (add_log w (map (CDrawRect i) (map (column_drawing img wm cw) xs)),
   Ok (add_drawings pg (map (column_drawing img wm cw) xs))).
Proof.
  induction xs as [| x xs IH]; intros pg w H; simpl in *.
  - cbn. rewrite add_log_nil. destruct pg; unfold add_drawings; simpl.
    by rewrite app_nil_r.
  - apply andb_prop in H as [Hx Hxs].
    rewrite bind_run, (draw_column_ok _ _ _ _ _ _ _ Hx), (IH _ _ Hxs).
    rewrite add_log_app. unfold add_drawings; simpl.
    by rewrite <- app_assoc.
Qed.

Lemma draw_columns_inv i img wm cw xs : forall pg w w' pg',
  for_each (draw_column true i img wm cw) xs pg w = (w', Ok pg') ->
  forallb (column_ok img) xs = true.
Proof.
  induction xs as [| x xs IH]; intros pg w w' pg' H; simpl in *; [done |].
  rewrite bind_run in H.
  destruct (column_ok img x) eqn:Hx.
  - rewrite (draw_column_ok _ _ _ _ _ _ _ Hx) in H. simpl. eauto.
  - destruct (draw_column_raises true i img wm cw pg x w Hx) as [e He].
    rewrite He in H. discriminate.
Qed.

(** ** One page *)

Lemma process_page_ok i pg w :
  strip_ok render pg = true ->
  process_page render i pg w =
  (add_log w (page_calls render (i, pg)), Ok (covered_page render pg)).
Proof.
  unfold strip_ok, process_page, process_page_in, strip_image, page_calls,
    covered_page. simpl.
  destruct (render pg (Matrix_scale 2 2) (sample_rect pg)) as [img |]; [| done].
  intros H. apply andb_prop in H as [Hw Hcols].
  rewrite !bind_run. cbn.
  destruct (img_width img =? 0)%N; [done |].
  rewrite (draw_columns_ok _ _ _ _ _ _ _ Hcols), log_call_add_log, add_log_app.
  reflexivity.
Qed.

Lemma process_page_inv i pg w w' pg' :
  process_page render i pg w = (w', Ok pg') -> strip_ok render pg = true.
Proof.
  unfold strip_ok, process_page, process_page_in, strip_image.
  rewrite !bind_run. cbn.
  destruct (render pg (Matrix_scale 2 2) (sample_rect pg)) as [img |]; cbn; [| done].
  destruct (img_width img =? 0)%N; cbn; [done |].
  intros H. by apply draw_columns_inv in H.
Qed.

Lemma range_head (n : Z) : 0 < n -> exists rest, range n = 0 :: rest.
Proof.
  intros Hn. unfold range.
  replace (Z.to_nat n) with (S (Z.to_nat n - 1)) by lia.
  cbn [seq map]. eauto.
Qed.

(** No page of a document that is not a PDF gets through. *)
Lemma process_page_not_pdf i pg w :
  exists w' e, process_page_in render false i pg w = (w', Raise e).
Proof.
  unfold process_page_in, strip_image. rewrite !bind_run. cbn [call].
  destruct (render pg (Matrix_scale 2 2) (sample_rect pg)) as [img |];
    cbn [mret M_ret raise]; [| by eexists _, _].
  destruct (img_width img =? 0)%N eqn:Hw; [by eexists _, _ |].
  apply N.eqb_neq in Hw.
  destruct (range_head (Z.of_N (img_width img))) as [rest ->]; [lia |].
  rewrite for_each_cons.
  match goal with
  | |- context [draw_column false ?i ?img ?wm ?cw ?pg ?x ?w0] =>
      destruct (draw_column_not_pdf i img wm cw pg x w0) as (w' & e & ->)
  end.
  by eexists _, _.
Qed.

(** ** The loop over the pages *)

Lemma enumerate_from_snd {A : Type} (l : list A) : forall k,
  map snd (combine (seq k (length l)) l) = l.
Proof. induction l as [| a l IH]; intros k; simpl; [done |]. by rewrite IH. Qed.

Lemma enumerate_snd {A : Type} (l : list A) : map snd (enumerate l) = l.
Proof. apply enumerate_from_snd. Qed.

Lemma enumerate_length {A : Type} (l : list A) : length (enumerate l) = length l.
Proof. rewrite <- (enumerate_snd l) at 2. by rewrite length_map. Qed.

Lemma page_step_run acc i pg w :
  page_step render true acc (i, pg) w =
  match process_page render i pg w with
  | (w', Ok pg') => (w', Ok (acc.1 ++ [pg'], acc.2 + 1))
  | (w', Raise e) => (w', Raise e)
  end.
Proof. reflexivity. Qed.

Lemma page_step_run_in pdf acc i pg w :
  page_step render pdf acc (i, pg) w =
  match process_page_in render pdf i pg w with
  | (w', Ok pg') => (w', Ok (acc.1 ++ [pg'], acc.2 + 1))
  | (w', Raise e) => (w', Raise e)
  end.
Proof. reflexivity. Qed.

Lemma pages_ok ips : forall acc w,
  forallb (strip_ok render) (map snd ips) = true ->
  for_each (page_step render true) ips acc w =
  (add_log w (flat_map (page_calls render) ips),
   Ok (acc.1 ++ map (covered_page render) (map snd ips),
       acc.2 + Z.of_nat (length ips))).
Proof.
  induction ips as [| [i pg] ips IH]; intros [done n] w H.
  - cbn. by rewrite add_log_nil, app_nil_r, Z.add_0_r.
  - cbn [map snd forallb] in H. apply andb_prop in H as [Hpg Hrest].
    rewrite for_each_cons, page_step_run, (process_page_ok _ _ _ Hpg).
    rewrite (IH _ _ Hrest), add_log_app.
    cbn [fst snd map flat_map length].
    rewrite <- app_assoc. do 3 f_equal. lia.
Qed.

Lemma pages_inv ips : forall acc w w' acc',
  for_each (page_step render true) ips acc w = (w', Ok acc') ->
  forallb (strip_ok render) (map snd ips) = true.
Proof.
  induction ips as [| [i pg] ips IH]; intros acc w w' acc' H; [done |].
  rewrite for_each_cons, page_step_run in H.
  destruct (process_page render i pg w) as [w1 [pg1 | e]] eqn:Hp; [| done].
  apply process_page_inv in Hp. cbn [map snd forallb]. rewrite Hp. simpl. eauto.
Qed.

Lemma getpixel_log_only img x y : log_only (getpixel img x y).
Proof. unfold getpixel. destruct (_ && _); auto with log_only. Qed.

Lemma draw_rect_log_only pdf i pg r color fill :
  log_only (draw_rect pdf i pg r color fill).
Proof. unfold draw_rect. destruct pdf; auto with log_only. Qed.

Lemma draw_column_log_only pdf i img wm cw pg x :
  log_only (draw_column pdf i img wm cw pg x).
Proof.
  unfold draw_column. apply log_only_bind; [apply getpixel_log_only |].
  intros [| a [| b [| c [| d rest]]]]; cbn [take];
    auto using draw_rect_log_only with log_only.
Qed.

Lemma draw_columns_log_only pdf i img wm cw xs pg :
  log_only (for_each (draw_column pdf i img wm cw) xs pg).
Proof. auto using draw_column_log_only with log_only. Qed.

Lemma strip_image_log_only i pg m clip : log_only (strip_image render i pg m clip).
Proof.
  unfold strip_image. apply log_only_bind; [apply log_only_call |].
  intros _. destruct (render _ _ _); auto with log_only.
Qed.

Lemma process_page_in_log_only pdf i pg : log_only (process_page_in render pdf i pg).
Proof.
  unfold process_page_in. apply log_only_bind; [apply strip_image_log_only |].
  intros img. destruct (img_width img =? 0)%N;
    auto using draw_columns_log_only with log_only.
Qed.

Lemma process_page_log_only i pg : log_only (process_page render i pg).
Proof. apply process_page_in_log_only. Qed.

Lemma pages_log_only pdf ips acc : log_only (for_each (page_step render pdf) ips acc).
Proof.
  apply log_only_for_each. intros b [i pg]. unfold page_step.
  apply log_only_bind; [apply process_page_in_log_only |].
  intros pg'. apply log_only_ret.
Qed.

(** ** Which exceptions the loop can raise *)

Lemma for_each_raises {A B : Type} (P : Exn -> Prop) (body : B -> A -> M B) xs :
  (forall b x w w' e, body b x w = (w', Raise e) -> P e) ->
  forall b w w' e, for_each body xs b w = (w', Raise e) -> P e.
Proof.
  intros Hbody. induction xs as [| x xs IH]; intros b w w' e H.
  - discriminate.
  - rewrite for_each_cons in H.
    destruct (body b x w) as [w1 [b1 | e1]] eqn:Hb.
    + eauto.
    + injection H as _ ->. eauto.
Qed.

Lemma draw_column_exn pdf i img wm cw pg x w w' e :
  draw_column pdf i img wm cw pg x w = (w', Raise e) -> page_exn e = true.
Proof.
  unfold draw_column, getpixel, draw_rect. rewrite bind_run.
  destruct (_ && _); cbn [mret M_ret raise].
  - destruct (img_at img x (Z.of_N (img_height img) / 2))
      as [| a [| b [| c rest]]]; destruct pdf; cbn;
      intros H; first [discriminate | injection H as _ <-; reflexivity].
  - intros H; injection H as _ <-; reflexivity.
Qed.

Lemma process_page_in_exn pdf i pg w w' e :
  process_page_in render pdf i pg w = (w', Raise e) -> page_exn e = true.
Proof.
  unfold process_page_in, strip_image. rewrite !bind_run. cbn.
  destruct (render pg (Matrix_scale 2 2) (sample_rect pg)) as [img |]; cbn.
  - destruct (img_width img =? 0)%N; cbn.
    + intros H; injection H as _ <-; reflexivity.
    + apply (for_each_raises (fun e => page_exn e = true)).
      intros b x w1 w2 e1. apply draw_column_exn.
  - intros H; injection H as _ <-; reflexivity.
Qed.

Lemma process_page_exn i pg w w' e :
  process_page render i pg w = (w', Raise e) -> page_exn e = true.
Proof. apply process_page_in_exn. Qed.

Lemma pages_exn pdf ips acc w w' e :
  for_each (page_step render pdf) ips acc w = (w', Raise e) -> page_exn e = true.
Proof.
  revert acc w w' e. apply (for_each_raises (fun e => page_exn e = true)).
  intros acc [i pg] w w' e. rewrite page_step_run_in.
  destruct (process_page_in render pdf i pg w) as [w1 [pg1 | e1]] eqn:Hp; [done |].
  intros H; injection H as _ <-. by apply process_page_in_exn in Hp.
Qed.

(** ** The whole function, case by case *)

Lemma remove_first_head name l : remove_first name (name :: l) = l.
Proof. simpl. by rewrite decide_True. Qed.

Lemma remove_watermark_cases inp out w :
  remove_watermark render save_outcome inp out w =
  match w_fs w !! inp with
  | None => (add_log w [COpen inp], Raise FileNotFoundError)
  | Some (OtherFile _) => (add_log w [COpen inp], Raise FileDataError)
  | Some (DocFile pages) =>
      let opened :=
        mkWorld (w_fs w) (inp :: w_open w) (w_writes w) (w_log w ++ [COpen inp]) in
      match for_each (page_step render false) (enumerate pages) ([], 0) opened with
      | (w1, Raise e) => (w1, Raise e)
      | (w1, Ok acc) => (add_log w1 [CSave out], Raise SaveError)
      end
  | Some (PdfFile pages) =>
      let opened :=
        mkWorld (w_fs w) (inp :: w_open w) (w_writes w) (w_log w ++ [COpen inp]) in
      match for_each (page_step render true) (enumerate pages) ([], 0) opened with
      | (w1, Raise e) => (w1, Raise e)
      | (w1, Ok acc) =>
          match save_outcome (mkDocument inp acc.1) out with
          | Saved =>
              (mkWorld (<[out := PdfFile acc.1]> (w_fs w1))
                       (remove_first inp (w_open w1))
                       (w_writes w1 ++ [out])
                       (w_log w1 ++ [CSave out; CClose inp]),
               Ok (mkResult acc.2))
          | SaveFailed None => (add_log w1 [CSave out], Raise SaveError)
          | SaveFailed (Some bytes) =>
              (mkWorld (<[out := OtherFile bytes]> (w_fs w1)) (w_open w1)
                       (w_writes w1 ++ [out]) (w_log w1 ++ [CSave out]),
               Raise SaveError)
          end
      end
  end.
Proof.
  unfold remove_watermark. rewrite bind_run. unfold fitz_open. cbn [log_call w_fs].
  destruct (w_fs w !! inp) as [[pages | pages | bytes] |]; try reflexivity.
  cbv zeta. rewrite bind_run. cbn [doc_pages doc_is_pdf].
  destruct (for_each _ _ _ _) as [w1 [acc | e]]; [| reflexivity].
  rewrite !bind_run. unfold doc_save, mkDocument.
  cbn [log_call w_fs w_open w_writes w_log doc_name doc_is_pdf].
  destruct (save_outcome _ _) as [| [bytes |]]; try reflexivity.
  rewrite bind_run. unfold doc_close, log_call. cbn. by rewrite <- app_assoc.
Qed.

Lemma loop_ok pages w0 :
  forallb (strip_ok render) pages = true ->
  for_each (page_step render true) (enumerate pages) ([], 0) w0 =
  (add_log w0 (flat_map (page_calls render) (enumerate pages)),
   Ok (map (covered_page render) pages, Z.of_nat (length pages))).
Proof.
  intros H. rewrite pages_ok by (by rewrite enumerate_snd).
  by rewrite enumerate_snd, enumerate_length.
Qed.

Lemma loop_fails pages w0 :
  forallb (strip_ok render) pages = false ->
  exists calls e,
    page_exn e = true /\
    for_each (page_step render true) (enumerate pages) ([], 0) w0 =
    (add_log w0 calls, Raise e).
Proof.
  intros H.
  pose proof (pages_log_only true (enumerate pages) ([], 0) w0) as Hlog.
  destruct (for_each _ _ _ blank) as [wb [acc | e]] eqn:Hb; simpl in Hlog.
  - apply pages_inv in Hb. rewrite enumerate_snd in Hb. congruence.
  - exists (w_log wb), e. split; [| done]. by apply pages_exn in Hb.
Qed.

(** The loop over the pages of a document that is not a PDF: it raises at
    the first page; with no page at all it comes to the save, which is
    refused. *)
Lemma loop_not_pdf pages w0 :
  match pages with
  | [] => for_each (page_step render false) (enumerate pages) ([], 0) w0 = (w0, Ok ([], 0))
  | _ :: _ =>
      exists calls e,
        page_exn e = true /\
        for_each (page_step render false) (enumerate pages) ([], 0) w0 =
        (add_log w0 calls, Raise e)
  end.
Proof.
  destruct pages as [| pg pages]; [reflexivity |].
  pose proof (pages_log_only false (enumerate (pg :: pages)) ([], 0) w0) as Hlog.
  destruct (for_each _ _ _ blank) as [wb [acc | e]] eqn:Hb; simpl in Hlog.
  - exfalso. unfold enumerate in Hb. cbn [length seq combine] in Hb.
    rewrite for_each_cons, page_step_run_in in Hb.
    destruct (process_page_not_pdf 0 pg blank) as (w' & e & Hp).
    rewrite Hp in Hb. discriminate.
  - exists (w_log wb), e. split; [| done]. by apply pages_exn in Hb.
Qed.

Lemma covered_page_dims pg :
  pg_width (covered_page render pg) = pg_width pg
  /\ pg_height (covered_page render pg) = pg_height pg.
Proof. unfold covered_page. by destruct (render _ _ _). Qed.

Lemma cover_length pg img : length (cover pg img) = N.to_nat (img_width img).
Proof. unfold cover, range. rewrite !length_map, length_seq. lia. Qed.

Lemma cover_lookup pg img (x : nat) :
  (x < N.to_nat (img_width img))%nat ->
  cover pg img !! x =
  Some (column_drawing img (watermark_rect pg) (col_width_of pg img) (Z.of_nat x)).
Proof.
  intros H. unfold cover, range. rewrite !list_lookup_fmap.
  rewrite lookup_seq_lt by lia. reflexivity.
Qed.

(** Every 8-bit channel value over 255 is a number between 0 and 1. *)
Lemma normalize_unit (c : Z) :
  0 <= c <= 255 -> unit_interval (normalize c) = true.
Proof.
  intros H.
  assert (Hall : forallb (fun c => unit_interval (normalize c)) (range 256) = true)
    by (vm_compute; reflexivity).
  rewrite forallb_forall in Hall. apply Hall.
  unfold range. apply in_map_iff. exists (Z.to_nat c). split; [lia |].
  apply in_seq. lia.
Qed.

(** Whatever happens next, a page starts with the call that rasterises its
    strip. *)
Lemma process_page_first_call i pg w :
  exists rest,
    w_log (process_page render i pg w).1 =
    w_log w ++ CGetPixmap i (Matrix_scale 2 2) (sample_rect pg) :: rest.
Proof.
  unfold process_page, process_page_in, strip_image. rewrite !bind_run. cbn.
  destruct (render pg (Matrix_scale 2 2) (sample_rect pg)) as [img |]; cbn.
  - destruct (img_width img =? 0)%N; cbn; [by exists [] |].
    match goal with
    | |- context [for_each ?body ?xs ?b ?w0] =>
        destruct (log_only_quiet (for_each body xs b) w0
                    (draw_columns_log_only _ _ _ _ _ _ _)) as (_ & _ & _ & ->)
    end.
    cbn. rewrite <- app_assoc. by eexists.
  - by exists [].
Qed.

(** Every way a call can go, with the world it leaves. *)
Lemma remove_watermark_run inp out w :
  let run := remove_watermark render save_outcome inp out w in
  match w_fs w !! inp with
  | None => run = (add_log w [COpen inp], Raise FileNotFoundError)
  | Some (OtherFile _) => run = (add_log w [COpen inp], Raise FileDataError)
  | Some (DocFile pages) =>
      exists calls e,
        (page_exn e = true \/ (e = SaveError /\ pages = [] /\ calls = [CSave out]))
        /\ run = (mkWorld (w_fs w) (inp :: w_open w) (w_writes w)
                          (w_log w ++ COpen inp :: calls),
                  Raise e)
  | Some (PdfFile pages) =>
      if forallb (strip_ok render) pages then
        let calls := COpen inp :: flat_map (page_calls render) (enumerate pages) in
        let pages' := map (covered_page render) pages in
        match save_outcome (mkDocument inp pages') out with
        | Saved =>
            run = (mkWorld (<[out := PdfFile pages']> (w_fs w)) (w_open w)
                           (w_writes w ++ [out])
                           (w_log w ++ calls ++ [CSave out; CClose inp]),
                   Ok (mkResult (Z.of_nat (length pages))))
        | SaveFailed None =>
            run = (mkWorld (w_fs w) (inp :: w_open w) (w_writes w)
                           (w_log w ++ calls ++ [CSave out]),
                   Raise SaveError)
        | SaveFailed (Some bytes) =>
            run = (mkWorld (<[out := OtherFile bytes]> (w_fs w)) (inp :: w_open w)
                           (w_writes w ++ [out])
                           (w_log w ++ calls ++ [CSave out]),
                   Raise SaveError)
        end
      else
        exists calls e,
          page_exn e = true
          /\ run = (mkWorld (w_fs w) (inp :: w_open w) (w_writes w)
                            (w_log w ++ COpen inp :: calls),
                    Raise e)
  end.
Proof.
  cbv zeta. rewrite remove_watermark_cases.
  destruct (w_fs w !! inp) as [[pages | pages | bytes] |]; try reflexivity.
  - cbv zeta. destruct (forallb (strip_ok render) pages) eqn:Hstrips.
    + rewrite (loop_ok _ _ Hstrips). cbn [fst snd].
      destruct (save_outcome _ _) as [| [bytes |]]; unfold add_log;
        cbn [w_fs w_open w_writes w_log];
        rewrite <- ?app_assoc; cbn [app]; try reflexivity.
      by rewrite remove_first_head.
    + destruct (loop_fails pages
                  (mkWorld (w_fs w) (inp :: w_open w) (w_writes w)
                           (w_log w ++ [COpen inp])) Hstrips)
        as (calls & e & He & ->).
      exists calls, e. split; [done |].
      unfold add_log; cbn [w_fs w_open w_writes w_log].
      by rewrite <- app_assoc.
  - cbv zeta.
    pose proof (loop_not_pdf pages
                  (mkWorld (w_fs w) (inp :: w_open w) (w_writes w)
                           (w_log w ++ [COpen inp]))) as Hloop.
    destruct pages as [| pg pages].
    + rewrite Hloop. exists [CSave out], SaveError. split; [by right |].
      unfold add_log; cbn [w_fs w_open w_writes w_log].
      by rewrite <- app_assoc.
    + destruct Hloop as (calls & e & He & ->).
      exists calls, e. split; [by left |].
      unfold add_log; cbn [w_fs w_open w_writes w_log].
      by rewrite <- app_assoc.
Qed.

(** ** The claims *)

(** C1. Page-count and dimension invariance: for an input document of n
    pages whose strips rasterise and whose save goes through,
    [remove_watermark] returns [pages_processed = n], the document written
    at the output path has n pages, and page i of the output has the width
    and height of page i of the input. *)
Theorem page_count_and_dimensions_invariant inp out pages w :
  w_fs w !! inp = Some (PdfFile pages) ->
  forallb (strip_ok render) pages = true ->
  save_outcome (mkDocument inp (map (covered_page render) pages)) out = Saved ->
  exists w' pages',
    remove_watermark render save_outcome inp out w =
      (w', Ok (mkResult (Z.of_nat (length pages))))
    /\ w_fs w' !! out = Some (PdfFile pages')
    /\ length pages' = length pages
    /\ Forall2 (fun pg pg' =>
                  pg_width pg' = pg_width pg /\ pg_height pg' = pg_height pg)
               pages pages'.
Proof.
  intros Hin Hstrips Hsave.
  rewrite remove_watermark_cases, Hin. cbv zeta.
  rewrite (loop_ok _ _ Hstrips). cbn [fst snd]. rewrite Hsave.
  eexists. exists (map (covered_page render) pages).
  split; [reflexivity |]. cbn [w_fs add_log].
  split; [apply lookup_insert_eq |].
  split; [apply length_map |].
  clear. induction pages as [| pg pages IH]; simpl; constructor; auto.
  apply covered_page_dims.
Qed.

(** C2. The watermark rectangle of a page of width w and height h is
    (w-115, h-30, w-5, h-5); the sampling strip has the same horizontal
    extent and runs vertically from wm_y1-10 to wm_y1-2; and the strip is
    the clip the page is rasterised with. *)
Theorem rectangles_as_specified i pg w :
  let W := pg_width pg in
  let H := pg_height pg in
  watermark_rect pg = mkRect (W - 115) (H - 30) (W - 5) (H - 5)
  /\ sample_rect pg =
       mkRect (rx0 (watermark_rect pg)) (ry0 (watermark_rect pg) - 10)
              (rx1 (watermark_rect pg)) (ry0 (watermark_rect pg) - 2)
  /\ sample_rect pg = mkRect (W - 115) (H - 30 - 10) (W - 5) (H - 30 - 2)
  /\ exists rest,
       w_log (process_page render i pg w).1 =
       w_log w
       ++ CGetPixmap i (Matrix_scale 2 2)
            (mkRect (W - 115) (H - 30 - 10) (W - 5) (H - 30 - 2))
          :: rest.
Proof.
  cbv zeta. repeat split; try reflexivity.
  apply process_page_first_call.
Qed.

Lemma strip_ok_columns pg img :
  render pg (Matrix_scale 2 2) (sample_rect pg) = Some img ->
  strip_ok render pg = true ->
  (0 < img_width img)%N
  /\ forall x : nat, (x < N.to_nat (img_width img))%nat ->
       column_ok img (Z.of_nat x) = true.
Proof.
  unfold strip_ok. intros -> H. apply andb_prop in H as [Hw Hcols].
  split.
  - apply negb_true_iff, N.eqb_neq in Hw. lia.
  - intros x Hx. rewrite forallb_forall in Hcols. apply Hcols.
    unfold range. apply in_map, in_seq. lia.
Qed.

Lemma process_page_covers i pg img w :
  render pg (Matrix_scale 2 2) (sample_rect pg) = Some img ->
  strip_ok render pg = true ->
  process_page render i pg w =
  (add_log w (CGetPixmap i (Matrix_scale 2 2) (sample_rect pg)
              :: map (CDrawRect i) (cover pg img)),
   Ok (add_drawings pg (cover pg img))).
Proof.
  intros Himg Hok. rewrite (process_page_ok _ _ _ Hok).
  unfold page_calls, covered_page. cbn [fst snd]. by rewrite Himg.
Qed.

(** C3. The strip is rasterised with the matrix that scales by 2 along
    both axes; the colour of column x comes from the single pixel at
    column x and row floor(height / 2) of the image, of which the first
    three channels are kept and each divided by 255, which for 8-bit
    channel values is a number between 0 and 1. *)
Theorem strip_sampled_per_column i pg img w :
  render pg (Matrix_scale 2 2) (sample_rect pg) = Some img ->
  strip_ok render pg = true ->
  Matrix_scale 2 2 = mkMatrix 2 0 0 2 0 0
  /\ exists ds,
       process_page render i pg w =
         (add_log w (CGetPixmap i (mkMatrix 2 0 0 2 0 0) (sample_rect pg)
                     :: map (CDrawRect i) ds),
          Ok (add_drawings pg ds))
       /\ length ds = N.to_nat (img_width img)
       /\ forall x : nat, (x < N.to_nat (img_width img))%nat ->
            exists d cr cg cb rest,
              ds !! x = Some d
              /\ img_at img (Z.of_nat x) (Z.of_N (img_height img) / 2)
                 = cr :: cg :: cb :: rest
              /\ d_fill d = ((float_of_int cr / 255)%float,
                             (float_of_int cg / 255)%float,
                             (float_of_int cb / 255)%float)
              /\ (0 <= cr <= 255 -> 0 <= cg <= 255 -> 0 <= cb <= 255 ->
                  unit_interval (d_fill d).1.1 = true
                  /\ unit_interval (d_fill d).1.2 = true
                  /\ unit_interval (d_fill d).2 = true).
Proof.
  intros Himg Hok. split; [reflexivity |].
  exists (cover pg img).
  split; [by apply process_page_covers |].
  split; [apply cover_length |].
  intros x Hx.
  destruct (strip_ok_columns _ _ Himg Hok) as [_ Hcols].
  specialize (Hcols x Hx). unfold column_ok in Hcols.
  apply andb_prop in Hcols as [_ Hlen]. apply Nat.leb_le in Hlen.
  destruct (img_at img (Z.of_nat x) (Z.of_N (img_height img) / 2))
    as [| cr [| cg [| cb rest]]] eqn:Hpx; simpl in Hlen; try lia.
  eexists _, cr, cg, cb, rest.
  split; [by apply cover_lookup |].
  split; [reflexivity |].
  unfold column_drawing, sampled_color. cbn [d_fill]. rewrite Hpx. cbn [nth fst snd].
  split; [reflexivity |].
  intros Hr Hg Hb. fold (normalize cr) (normalize cg) (normalize cb).
  auto using normalize_unit.
Qed.

(** C4. A page whose strip rasterises to n >= 1 readable columns gets
    exactly n [draw_rect] calls, one per column, whatever the colours; the
    x-th rectangle runs from wm_x1 + x * col_width to
    wm_x1 + (x+1) * col_width, with col_width = (wm_x2 - wm_x1) / n, and
    from wm_y1 to wm_y2, and its outline and its fill are both the colour
    sampled in column x. *)
Theorem one_rectangle_per_column i pg img w :
  render pg (Matrix_scale 2 2) (sample_rect pg) = Some img ->
  strip_ok render pg = true ->
  let n := Z.of_N (img_width img) in
  let wm_x1 := (pg_width pg - 115)%float in
  let wm_y1 := (pg_height pg - 30)%float in
  let wm_x2 := (pg_width pg - 5)%float in
  let wm_y2 := (pg_height pg - 5)%float in
  let col_width := ((wm_x2 - wm_x1) / float_of_int n)%float in
  1 <= n
  /\ exists ds,
       process_page render i pg w =
         (add_log w (CGetPixmap i (Matrix_scale 2 2) (sample_rect pg)
                     :: map (CDrawRect i) ds),
          Ok (add_drawings pg ds))
       /\ Z.of_nat (length ds) = n
       /\ forall x : nat, Z.of_nat x < n ->
            ds !! x =
            Some (mkDrawing
                    (mkRect (wm_x1 + float_of_int (Z.of_nat x) * col_width) wm_y1
                            (wm_x1 + float_of_int (Z.of_nat x + 1) * col_width) wm_y2)
                    (sampled_color img (Z.of_nat x))
                    (sampled_color img (Z.of_nat x))).
Proof.
  intros Himg Hok. cbv zeta.
  destruct (strip_ok_columns _ _ Himg Hok) as [Hw _].
  split; [lia |].
  exists (cover pg img).
  split; [by apply process_page_covers |].
  split; [rewrite cover_length; lia |].
  intros x Hx. rewrite cover_lookup by lia. reflexivity.
Qed.

Lemma render_none_strip pages :
  Exists (fun pg => render pg (Matrix_scale 2 2) (sample_rect pg) = None) pages ->
  forallb (strip_ok render) pages = false.
Proof.
  induction 1 as [pg pages Hpg | pg pages _ IH]; cbn [forallb].
  - unfold strip_ok. by rewrite Hpg.
  - rewrite IH. apply andb_false_r.
Qed.

(** The cases of [remove_watermark_run], as goals. *)
Ltac run_cases inp out w :=
  let Hrun := fresh "Hrun" in
  pose proof (remove_watermark_run inp out w) as Hrun; cbv zeta in Hrun;
  let pages := fresh "pages" in
  let bytes := fresh "bytes" in
  let left := fresh "left" in
  let calls := fresh "calls" in
  let e := fresh "e" in
  let He := fresh "He" in
  destruct (w_fs w !! inp) as [[pages | pages | bytes] |] eqn:Hin;
  [ destruct (forallb (strip_ok render) pages) eqn:Hstrips;
    [ destruct (save_outcome _ out) as [| [left |]] eqn:Hsave
    | destruct Hrun as (calls & e & He & Hrun) ]
  | destruct Hrun as (calls & e & He & Hrun)
  | | ];
  rewrite Hrun; clear Hrun; cbn [fst snd w_fs w_open w_writes w_log add_log].

(** C5, as the code has it.  No page is skipped: whenever
    [remove_watermark] returns a result, every page of the input, narrow
    or not, had its strip rasterised to at least one column and got one
    rectangle drawn per column, and every page was counted. *)
Theorem no_page_is_skipped inp out w w' res :
  remove_watermark render save_outcome inp out w = (w', Ok res) ->
  exists pages pages',
    w_fs w !! inp = Some (PdfFile pages)
    /\ w_fs w' !! out = Some (PdfFile pages')
    /\ pages_processed res = Z.of_nat (length pages)
    /\ Forall2 (fun pg pg' =>
                  exists img,
                    render pg (Matrix_scale 2 2) (sample_rect pg) = Some img
                    /\ (0 < img_width img)%N
                    /\ pg_drawn pg' = pg_drawn pg ++ cover pg img
                    /\ length (cover pg img) = N.to_nat (img_width img))
               pages pages'.
Proof.
  run_cases inp out w; intros H; try discriminate.
  injection H as <- <-.
  exists pages, (map (covered_page render) pages).
  split; [done |]. cbn [w_fs pages_processed].
  split; [apply lookup_insert_eq |].
  split; [done |].
  clear Hin Hsave. induction pages as [| pg pages IH]; cbn [map]; constructor.
  - cbn [forallb] in Hstrips. apply andb_prop in Hstrips as [Hpg _].
    unfold covered_page.
    destruct (render pg (Matrix_scale 2 2) (sample_rect pg)) as [img |] eqn:Himg.
    + exists img. destruct (strip_ok_columns _ _ Himg Hpg) as [Hw _].
      repeat split; [done | apply cover_length].
    + unfold strip_ok in Hpg. by rewrite Himg in Hpg.
  - apply IH. cbn [forallb] in Hstrips. by apply andb_prop in Hstrips as [_ ?].
Qed.

(** C6, as the code has it.  A call that raises anything but the save's
    own error leaves the whole file system as it was, with nothing
    written: so it is when the input is missing, when [fitz.open] rejects
    it, when it opens as a document that is not a PDF, and when a page's
    strip cannot be rasterised.  A call writes at most once, to the output
    path, and when it writes, the save comes after the calls made for
    every page.  When the save itself raises it was the last call made and
    every path but the output path holds what it held; what the output
    path holds then is what [Document.save] left there. *)
Theorem failure_before_save_leaves_no_output inp out w :
  let run := remove_watermark render save_outcome inp out w in
  let untouched := w_fs run.1 = w_fs w /\ w_writes run.1 = w_writes w in
  (w_fs w !! inp = None -> run.2 = Raise FileNotFoundError /\ untouched)
  /\ (forall bytes, w_fs w !! inp = Some (OtherFile bytes) ->
        run.2 = Raise FileDataError /\ untouched)
  /\ (forall pages, w_fs w !! inp = Some (DocFile pages) ->
        (exists e, run.2 = Raise e) /\ untouched)
  /\ (forall pages, w_fs w !! inp = Some (PdfFile pages) ->
        Exists (fun pg => render pg (Matrix_scale 2 2) (sample_rect pg) = None) pages ->
        (exists e, run.2 = Raise e /\ page_exn e = true) /\ untouched)
  /\ (forall e, run.2 = Raise e -> e <> SaveError -> untouched)
  /\ (run.2 = Raise SaveError ->
        (exists before, w_log run.1 = w_log w ++ before ++ [CSave out])
        /\ (forall p, p <> out -> w_fs run.1 !! p = w_fs w !! p))
  /\ (w_writes run.1 = w_writes w \/ w_writes run.1 = w_writes w ++ [out])
  /\ (w_writes run.1 = w_writes w ++ [out] ->
        exists pages,
          w_fs w !! inp = Some (PdfFile pages)
          /\ exists closing,
               w_log run.1 =
               w_log w ++ COpen inp
                          :: flat_map (page_calls render) (enumerate pages)
                          ++ CSave out :: closing).
Proof.
  cbv zeta. split_and!.
  - intros Hnone. run_cases inp out w; split_and!; congruence.
  - intros b Hb. run_cases inp out w; split_and!; congruence.
  - intros pages0 Hdoc. run_cases inp out w; try congruence.
    split; [by exists e | done].
  - intros pages0 Hpdf Hnone. apply render_none_strip in Hnone.
    run_cases inp out w; try congruence.
    split; [| done]. by exists e.
  - intros e0. run_cases inp out w; intros He0 Hne; split; congruence.
  - run_cases inp out w; intros Hsave'; try discriminate.
    + split; [by eexists | intros p Hp; by rewrite lookup_insert_ne].
    + split; [by eexists | done].
    + injection Hsave' as ->. discriminate.
    + injection Hsave' as ->. destruct He as [He | (_ & _ & ->)]; [discriminate |].
      split; [by exists [COpen inp] | done].
  - run_cases inp out w; auto.
  - run_cases inp out w; intros Hw;
      try (exfalso; apply (f_equal length) in Hw; rewrite length_app in Hw;
           simpl in Hw; lia);
      exists pages; (split; [done |]); cbn [app]; eauto.
Qed.

(** C7. Determinism: two calls that find the same file at the input path
    make the same library calls with the same arguments (so sample the
    same colours and draw the same rectangles), return the same result or
    raise the same exception, and, when they return, leave the same
    document at the output path, whatever else differs between the two
    worlds. *)
Theorem remove_watermark_deterministic inp out w1 w2 :
  w_fs w1 !! inp = w_fs w2 !! inp ->
  let run1 := remove_watermark render save_outcome inp out w1 in
  let run2 := remove_watermark render save_outcome inp out w2 in
  run1.2 = run2.2
  /\ (exists calls,
        w_log run1.1 = w_log w1 ++ calls /\ w_log run2.1 = w_log w2 ++ calls)
  /\ (forall res, run1.2 = Ok res ->
        run2.2 = Ok res
        /\ exists pages',
             w_fs run1.1 !! out = Some (PdfFile pages')
             /\ w_fs run2.1 !! out = Some (PdfFile pages')).
Proof.
  intros Hsame. cbv zeta.
  rewrite !remove_watermark_cases, <- Hsame.
  destruct (w_fs w1 !! inp) as [[pages | pages | bytes] |]; cbv zeta.
  - pose proof (pages_log_only true (enumerate pages) ([], 0)) as Hlog.
    rewrite (Hlog (mkWorld (w_fs w1) _ _ _)), (Hlog (mkWorld (w_fs w2) _ _ _)).
    destruct (for_each _ _ _ blank) as [wb [acc | e]]; cbn [fst snd].
    + destruct (save_outcome _ out) as [| [left |]];
        cbn [fst snd add_log w_fs w_log]; rewrite <- !app_assoc;
        (split_and!;
         [done | eexists; split; reflexivity | intros res Hres; try discriminate]).
      split; [done |]. exists acc.1. by rewrite !lookup_insert_eq.
    + cbn [fst snd add_log w_log]. rewrite <- !app_assoc.
      split_and!; [done | eexists; split; reflexivity | done].
  - pose proof (pages_log_only false (enumerate pages) ([], 0)) as Hlog.
    rewrite (Hlog (mkWorld (w_fs w1) _ _ _)), (Hlog (mkWorld (w_fs w2) _ _ _)).
    destruct (for_each _ _ _ blank) as [wb [acc | e]];
      cbn [fst snd add_log w_log]; rewrite <- !app_assoc;
      (split_and!; [done | eexists; split; reflexivity | done]).
  - cbn. split_and!; [done | eexists; split; reflexivity | done].
  - cbn. split_and!; [done | eexists; split; reflexivity | done].
Qed.

(** Where the document handle ends up.  It is closed on the one path
    that returns: there the open handles are those from before the call
    and [doc.close()] is the last call made.  On every path that raises
    after [fitz.open] returned a document, PDF or not (a strip that does
    not rasterise, a pixel that cannot be read, a [draw_rect] or a save
    that is refused or fails), no close is made and the handle stays open;
    when [fitz.open] itself raises there is no handle. *)
Lemma handle_after_run inp out w :
  let run := remove_watermark render save_outcome inp out w in
  (forall res, run.2 = Ok res ->
     w_open run.1 = w_open w
     /\ exists calls, w_log run.1 = w_log w ++ calls ++ [CClose inp])
  /\ (forall e pages, run.2 = Raise e ->
        w_fs w !! inp = Some (PdfFile pages) \/ w_fs w !! inp = Some (DocFile pages) ->
        w_open run.1 = inp :: w_open w)
  /\ (forall e, run.2 = Raise e ->
        w_fs w !! inp = None \/ (exists bytes, w_fs w !! inp = Some (OtherFile bytes)) ->
        w_open run.1 = w_open w).
Proof.
  cbv zeta. split_and!.
  - intros res. run_cases inp out w; intros Hres; try discriminate.
    split; [done |].
    exists (COpen inp :: flat_map (page_calls render) (enumerate pages) ++ [CSave out]).
    cbn [app]. by rewrite <- !app_assoc.
  - intros e0 pages0. run_cases inp out w; intros He0 [Hpdf | Hdoc]; congruence.
  - intros e0. run_cases inp out w; intros He0 [Hnone | [b Hb]]; congruence.
Qed.

(** C10. When the output path differs from the input path, the file at
    the input path is the same after the call as before; more generally
    every path but the output path keeps its file, and the output path is
    the only path the call writes to. *)
Theorem only_output_path_written inp out w :
  out <> inp ->
  let run := remove_watermark render save_outcome inp out w in
  w_fs run.1 !! inp = w_fs w !! inp
  /\ (forall p, p <> out -> w_fs run.1 !! p = w_fs w !! p)
  /\ (forall p, In p (w_writes run.1) -> In p (w_writes w) \/ p = out).
Proof.
  intros Hne. cbv zeta.
  assert (Hframe : forall p, p <> out ->
            w_fs (remove_watermark render save_outcome inp out w).1 !! p
            = w_fs w !! p).
  { intros p Hp. run_cases inp out w; try done; by rewrite lookup_insert_ne. }
  split_and!.
  - by apply Hframe.
  - exact Hframe.
  - intros p. run_cases inp out w; rewrite ?in_app_iff; simpl; intuition auto.
Qed.

End Properties.

(** ** Extents of the two rectangles *)

Lemma all_from_spec (check : Z -> bool) (count : nat) : forall k j,
  all_from check k count = true ->
  k <= j < k + Z.of_nat count ->
  check j = true.
Proof.
  induction count as [| count IH]; intros k j Hall Hj; [lia |].
  cbn [all_from] in Hall. apply andb_prop in Hall as [Hk Hrest].
  destruct (Z.eq_dec j k) as [-> | Hne]; [done |].
  apply (IH (k + 1)); [done | lia].
Qed.

(** *** Subtraction without rounding

    The primitive floats are specified by [SpecFloat]: [Prim2SF] maps a
    float to its sign, mantissa and exponent, and [x - y] is [SFsub] of
    the two, which aligns the mantissas, subtracts them as integers and
    rounds the result to 53 bits.  On numbers of a common grid [Z / 2^k]
    whose difference has at most 53 bits the rounding step shifts out
    zero bits only, so the difference is exact. *)

Lemma iter_pos_nat {A : Type} (f : A -> A) (p : positive) (x : A) :
  SpecFloat.iter_pos f p x = Nat.iter (Pos.to_nat p) f x.
Proof.
  revert x. induction p as [p IH | p IH |]; intros x; cbn [SpecFloat.iter_pos].
  - rewrite !IH, Pos2Nat.inj_xI.
    replace (S (2 * Pos.to_nat p))%nat with (Pos.to_nat p + (Pos.to_nat p + 1))%nat by lia.
    rewrite !Nat.iter_add. reflexivity.
  - rewrite !IH, Pos2Nat.inj_xO.
    replace (2 * Pos.to_nat p)%nat with (Pos.to_nat p + Pos.to_nat p)%nat by lia.
    rewrite Nat.iter_add. reflexivity.
  - reflexivity.
Qed.

Lemma pos_iter_pshl (m p : positive) : Pos.iter xO m p = pshl m (Pos.to_nat p).
Proof. apply Pos2Nat.inj_iter. Qed.

Lemma pshl_pshl m i j : pshl (pshl m i) j = pshl m (i + j).
Proof. unfold pshl. rewrite (Nat.add_comm i j), Nat.iter_add. reflexivity. Qed.

Lemma pshl_Z m j : Z.pos (pshl m j) = Z.pos m * 2 ^ Z.of_nat j.
Proof.
  induction j as [| j IH].
  - simpl. lia.
  - change (pshl m (S j)) with (xO (pshl m j)).
    rewrite Pos2Z.inj_xO, IH, Nat2Z.inj_succ, Z.pow_succ_r by lia. ring.
Qed.

Lemma digits2_pshl m j :
  Z.pos (digits2_pos (pshl m j)) = Z.pos (digits2_pos m) + Z.of_nat j.
Proof.
  induction j as [| j IH].
  - simpl. lia.
  - change (pshl m (S j)) with (xO (pshl m j)).
    cbn [digits2_pos]. rewrite Pos2Z.inj_succ, IH. lia.
Qed.

(** Shifting out zero bits is exact. *)
Lemma shr_1_pshl m i j :
  Nat.iter i shr_1 (Build_shr_record (Z.pos (pshl m (i + j))) false false) =
  Build_shr_record (Z.pos (pshl m j)) false false.
Proof.
  induction i as [| i IH]; [reflexivity |].
  rewrite Nat.iter_succ_r.
  change (pshl m (S i + j)) with (xO (pshl m (i + j))).
  cbn [shr_1 orb]. exact IH.
Qed.

(** With enough zero bits at the end, shifting a mantissa of [d] digits
    down to 53 digits loses nothing. *)
Lemma shr_fexp_pshl (m : positive) (e : Z) (j : nat) :
  let d := Z.pos (digits2_pos m) in
  d <= prec ->
  emin <= e + d - prec ->
  prec - d <= Z.of_nat j ->
  shr_fexp prec emax (Z.pos (pshl m j)) (e - Z.of_nat j) loc_Exact =
  (Build_shr_record (Z.pos (pshl m (Z.to_nat (prec - d)))) false false, e + d - prec).
Proof.
  intros d Hd Hlo Hj. unfold shr_fexp, shr_record_of_loc, Zdigits2, fexp.
  rewrite digits2_pshl. fold d.
  replace (d + Z.of_nat j + (e - Z.of_nat j) - prec) with (e + d - prec) by lia.
  rewrite Z.max_l by exact Hlo.
  destruct (e + d - prec - (e - Z.of_nat j)) as [| p | p] eqn:Hs; unfold shr.
  - replace j with (Z.to_nat (prec - d)) by lia.
    f_equal. lia.
  - rewrite iter_pos_nat.
    replace j with (Pos.to_nat p + Z.to_nat (prec - d))%nat at 1 by lia.
    rewrite shr_1_pshl. f_equal. lia.
  - lia.
Qed.

(** The number [m * 2^j * 2^(e-j)], which is [m * 2^e], is a binary64
    number when [m] has [d <= 53] digits and the exponent is in range, and
    is not rounded: its mantissa is [m] shifted up to 53 digits. *)
Lemma binary_round_pshl (m : positive) (e : Z) (s : bool) (j : nat) :
  let d := Z.pos (digits2_pos m) in
  d <= prec ->
  emin <= e + d - prec ->
  e + d - prec <= emax - prec ->
  binary_round prec emax s (pshl m j) (e - Z.of_nat j) =
  S754_finite s (pshl m (Z.to_nat (prec - d))) (e + d - prec).
Proof.
  intros d Hd Hlo Hhi.
  assert (Haux : forall i, prec - d <= Z.of_nat i ->
            binary_round_aux prec emax s (Z.pos (pshl m i)) (e - Z.of_nat i) loc_Exact =
            S754_finite s (pshl m (Z.to_nat (prec - d))) (e + d - prec)).
  { intros i Hi. unfold binary_round_aux.
    rewrite (shr_fexp_pshl m e i Hd Hlo Hi). fold d.
    cbn [shr_m loc_of_shr_record round_nearest_even].
    replace (e + d - prec) with (e - Z.of_nat (Z.to_nat (prec - d))) at 1 by lia.
    rewrite (shr_fexp_pshl m e (Z.to_nat (prec - d)) Hd Hlo) by (fold d; lia). fold d.
    cbn [shr_m].
    destruct (e + d - prec <=? emax - prec) eqn:Hle; [reflexivity |].
    apply Z.leb_gt in Hle. lia. }
  unfold binary_round, shl_align, fexp.
  rewrite digits2_pshl. fold d.
  replace (d + Z.of_nat j + (e - Z.of_nat j) - prec) with (e + d - prec) by lia.
  rewrite Z.max_l by exact Hlo.
  destruct (e + d - prec - (e - Z.of_nat j)) as [| p | p] eqn:Hs.
  - apply Haux. lia.
  - apply Haux. lia.
  - rewrite pos_iter_pshl, pshl_pshl.
    replace (e + d - prec) with (e - Z.of_nat (j + Pos.to_nat p)) at 1 by lia.
    apply Haux. lia.
Qed.

Lemma digits2_pos_bound (m : positive) :
  2 ^ (Z.pos (digits2_pos m) - 1) <= Z.pos m < 2 ^ Z.pos (digits2_pos m).
Proof.
  induction m as [m IH | m IH |]; cbn [digits2_pos].
  - rewrite Pos2Z.inj_succ, (Pos2Z.inj_xI m).
    replace (Z.succ (Z.pos (digits2_pos m)) - 1) with (Z.succ (Z.pos (digits2_pos m) - 1)) by lia.
    rewrite !Z.pow_succ_r by lia.
    generalize dependent (2 ^ (Z.pos (digits2_pos m) - 1)).
    generalize dependent (2 ^ Z.pos (digits2_pos m)). lia.
  - rewrite Pos2Z.inj_succ, (Pos2Z.inj_xO m).
    replace (Z.succ (Z.pos (digits2_pos m)) - 1) with (Z.succ (Z.pos (digits2_pos m) - 1)) by lia.
    rewrite !Z.pow_succ_r by lia.
    generalize dependent (2 ^ (Z.pos (digits2_pos m) - 1)).
    generalize dependent (2 ^ Z.pos (digits2_pos m)). lia.
  - simpl. lia.
Qed.

Lemma digits2_pos_le (m : positive) : Z.pos m < 2 ^ prec -> Z.pos (digits2_pos m) <= prec.
Proof.
  intros Hm. destruct (Z.le_gt_cases (Z.pos (digits2_pos m)) prec) as [H | H]; [exact H |].
  pose proof (digits2_pos_bound m) as [Hlo _].
  assert (2 ^ prec <= 2 ^ (Z.pos (digits2_pos m) - 1)) by (apply Z.pow_le_mono_r; lia).
  lia.
Qed.

Lemma normalize_pshl (s : bool) (m : positive) (k : Z) (j : nat) :
  Z.pos m < 2 ^ prec ->
  -900 <= k <= 1000 ->
  binary_round prec emax s (pshl m j) (- k - Z.of_nat j) =
  S754_finite s (dyadic_mantissa (Z.pos m)) (dyadic_exponent (Z.pos m) k).
Proof.
  intros Hm Hk. pose proof (digits2_pos_le m Hm) as Hd.
  assert (0 < Z.pos (digits2_pos m)) by lia.
  unfold prec, emax in *.
  apply binary_round_pshl; unfold SpecFloat.emin, prec, emax; lia.
Qed.

(** [(n * 2^j) / 2^(k+j)] is [n / 2^k]. *)
Lemma normalize_shift (n k : Z) (j : nat) :
  Z.abs n < 2 ^ prec ->
  -900 <= k <= 1000 ->
  binary_normalize prec emax (n * 2 ^ Z.of_nat j) (- k - Z.of_nat j) false = dyadic n k.
Proof.
  intros Hn Hk. unfold dyadic. destruct n as [| m | m].
  - reflexivity.
  - rewrite <- pshl_Z. cbn [binary_normalize].
    rewrite normalize_pshl by (try lia; exact Hn).
    replace (- k) with (- k - Z.of_nat 0) by lia.
    change m with (pshl m 0) at 3.
    rewrite normalize_pshl by (try lia; exact Hn). reflexivity.
  - replace (Z.neg m * 2 ^ Z.of_nat j) with (Z.neg (pshl m j))
      by (rewrite <- Pos2Z.opp_pos, pshl_Z; lia).
    cbn [binary_normalize].
    rewrite normalize_pshl by (try lia; exact Hn).
    replace (- k) with (- k - Z.of_nat 0) by lia.
    change m with (pshl m 0) at 3.
    rewrite normalize_pshl by (try lia; exact Hn). reflexivity.
Qed.

Lemma dyadic_finite (n k : Z) :
  n <> 0 ->
  Z.abs n < 2 ^ prec ->
  -900 <= k <= 1000 ->
  dyadic n k = S754_finite (n <? 0) (dyadic_mantissa n) (dyadic_exponent n k).
Proof.
  intros Hn0 Hn Hk. unfold dyadic. destruct n as [| m | m]; [done | |].
  - cbn [binary_normalize].
    replace (- k) with (- k - Z.of_nat 0) by lia.
    change m with (pshl m 0) at 1.
    rewrite normalize_pshl by (try lia; exact Hn). reflexivity.
  - cbn [binary_normalize].
    replace (- k) with (- k - Z.of_nat 0) by lia.
    change m with (pshl m 0) at 1.
    rewrite normalize_pshl by (try lia; exact Hn). reflexivity.
Qed.

Lemma shl_align_pshl (mx : positive) (ex ez : Z) :
  ez <= ex ->
  (shl_align mx ex ez).1 = pshl mx (Z.to_nat (ex - ez)).
Proof.
  intros Hle. unfold shl_align.
  destruct (ez - ex) as [| p | p] eqn:Hs.
  - replace (ex - ez) with 0 by lia. reflexivity.
  - lia.
  - cbn [fst]. rewrite pos_iter_pshl. f_equal. lia.
Qed.

(** The mantissa of [n / 2^k], aligned to a lower exponent [ez]. *)
Lemma aligned_mantissa (n k ez : Z) :
  n <> 0 ->
  Z.abs n < 2 ^ prec ->
  ez <= dyadic_exponent n k ->
  cond_Zopp (n <? 0) (Z.pos (shl_align (dyadic_mantissa n) (dyadic_exponent n k) ez).1) =
  n * 2 ^ Z.of_nat (Z.to_nat (- k - ez)).
Proof.
  intros Hn0 Hn Hez.
  rewrite shl_align_pshl by exact Hez.
  unfold dyadic_mantissa. rewrite pshl_pshl, pshl_Z.
  assert (Hd : Z.pos (digits2_pos (Z.to_pos (Z.abs n))) <= prec).
  { apply digits2_pos_le. rewrite Z2Pos.id by lia. exact Hn. }
  unfold dyadic_exponent in *.
  replace (Z.to_nat (prec - Z.pos (digits2_pos (Z.to_pos (Z.abs n)))) +
           Z.to_nat (- k + Z.pos (digits2_pos (Z.to_pos (Z.abs n))) - prec - ez))%nat
    with (Z.to_nat (- k - ez)) by lia.
  rewrite Z2Pos.id by lia.
  destruct (n <? 0) eqn:Hs; cbn [cond_Zopp].
  - apply Z.ltb_lt in Hs. rewrite Z.abs_neq by lia. ring.
  - apply Z.ltb_ge in Hs. rewrite Z.abs_eq by lia. ring.
Qed.

(** Subtraction of two numbers of the grid [Z / 2^k] is exact when the
    operands and the difference have at most 53 bits. *)
Lemma SFsub_dyadic (a b k : Z) :
  Z.abs a < 2 ^ prec ->
  Z.abs b < 2 ^ prec ->
  Z.abs (a - b) < 2 ^ prec ->
  -900 <= k <= 1000 ->
  SFsub prec emax (dyadic a k) (dyadic b k) = dyadic (a - b) k.
Proof.
  intros Ha Hb Hab Hk.
  destruct (Z.eq_dec b 0) as [-> | Hb0].
  { rewrite Z.sub_0_r. change (dyadic 0 k) with (S754_zero false).
    destruct (Z.eq_dec a 0) as [-> | Ha0]; [reflexivity |].
    rewrite dyadic_finite by assumption. reflexivity. }
  destruct (Z.eq_dec a 0) as [-> | Ha0].
  { change (dyadic 0 k) with (S754_zero false).
    rewrite !dyadic_finite by (try assumption; lia).
    cbn [SFsub]. unfold dyadic_mantissa, dyadic_exponent.
    replace (Z.abs (0 - b)) with (Z.abs b) by lia.
    f_equal. destruct (b <? 0) eqn:H1, (0 - b <? 0) eqn:H2; try reflexivity; lia. }
  rewrite (dyadic_finite a), (dyadic_finite b) by assumption.
  cbn [SFsub].
  set (ez := Z.min (dyadic_exponent a k) (dyadic_exponent b k)).
  rewrite !aligned_mantissa by (try assumption; lia).
  rewrite <- Z.mul_sub_distr_r.
  pose proof (normalize_shift (a - b) k (Z.to_nat (- k - ez)) Hab Hk) as Hn.
  replace (- k - Z.of_nat (Z.to_nat (- k - ez))) with ez in Hn; [exact Hn |].
  assert (Hd : Z.pos (digits2_pos (Z.to_pos (Z.abs a))) <= prec).
  { apply digits2_pos_le. rewrite Z2Pos.id by lia. exact Ha. }
  unfold dyadic_exponent in *. lia.
Qed.

Lemma sub_is_dyadic (x y : float) (a b k : Z) :
  is_dyadic x a k -> is_dyadic y b k ->
  Z.abs a < 2 ^ prec -> Z.abs b < 2 ^ prec -> Z.abs (a - b) < 2 ^ prec ->
  -900 <= k <= 1000 ->
  is_dyadic (x - y) (a - b) k.
Proof.
  unfold is_dyadic. intros Hx Hy Ha Hb Hab Hk.
  rewrite sub_spec, Hx, Hy. by apply SFsub_dyadic.
Qed.

(** A whole number [c] on the grid of step [1 / 2^k]. *)
Lemma whole_is_dyadic (f : float) (c k : Z) :
  is_dyadic f c 0 ->
  Z.abs c < 2 ^ prec ->
  0 <= k <= 1000 ->
  is_dyadic f (c * 2 ^ k) k.
Proof.
  unfold is_dyadic. intros -> Hc Hk.
  pose proof (normalize_shift c 0 (Z.to_nat k) Hc ltac:(lia)) as H.
  rewrite Z2Nat.id in H by lia. rewrite <- H. reflexivity.
Qed.

Lemma is_dyadic_inj (x y : float) (n k : Z) :
  is_dyadic x n k -> is_dyadic y n k -> x = y.
Proof. unfold is_dyadic. intros Hx Hy. apply Prim2SF_inj. congruence. Qed.

Lemma float_of_int_is_dyadic (n : Z) :
  0 <= n < 2 ^ 63 -> is_dyadic (float_of_int n) n 0.
Proof.
  intros Hn. unfold is_dyadic, float_of_int.
  destruct (n <? 0) eqn:Hneg; [apply Z.ltb_lt in Hneg; lia |].
  rewrite of_uint63_spec, Uint63.of_Z_spec.
  rewrite Z.mod_small; [reflexivity |].
  change Uint63.wB with (2 ^ 63). lia.
Qed.

(** Every single-precision number [m * 2^e] from 2^-23 up to 2^52 (a
    mantissa [m] below 2^24, an exponent [e] from -46 to 28), and every
    smaller one with the same exponents, is a number [n / 2^k] that fits
    in 53 bits together with the offset 115. *)
Lemma single_precision_on_grid (m e : Z) :
  0 <= m < 2 ^ 24 -> -46 <= e <= 28 ->
  exists n k,
    binary_normalize prec emax m e false = dyadic n k
    /\ 0 <= k /\ 0 <= n /\ n + 115 * 2 ^ k < 2 ^ 53.
Proof.
  intros Hm He.
  change (2 ^ 24) with 16777216 in Hm. change (2 ^ 53) with 9007199254740992.
  destruct (Z.lt_ge_cases e 0) as [Hneg | Hpos].
  - exists m, (- e). unfold dyadic. rewrite Z.opp_involutive.
    split; [reflexivity |].
    assert (2 ^ (- e) <= 2 ^ 46) by (apply Z.pow_le_mono_r; lia).
    change (2 ^ 46) with 70368744177664 in *. lia.
  - exists (m * 2 ^ e), 0.
    assert (Hpow : 0 < 2 ^ e <= 2 ^ 28)
      by (split; [apply Z.pow_pos_nonneg; lia | apply Z.pow_le_mono_r; lia]).
    change (2 ^ 28) with 268435456 in Hpow.
    split; [| change (2 ^ 0) with 1; nia].
    pose proof (normalize_shift m (- e) (Z.to_nat e)) as H.
    rewrite Z2Nat.id, Z.opp_involutive, Z.sub_diag in H by lia.
    change (dyadic (m * 2 ^ e) 0) with (binary_normalize prec emax (m * 2 ^ e) 0 false).
    rewrite H; [| change (2 ^ prec) with 9007199254740992; lia | lia].
    unfold dyadic. by rewrite Z.opp_involutive.
Qed.

(** A grid fine enough for an offset [c >= 1] has [k <= 52]. *)
Lemma grid_step_bound (n c k : Z) :
  0 <= k -> 0 <= n -> 1 <= c -> n + c * 2 ^ k < 2 ^ 53 -> k <= 52.
Proof.
  intros Hk Hn Hc Hlt.
  destruct (Z.le_gt_cases k 52) as [H | H]; [exact H |].
  assert (2 ^ 53 <= 2 ^ k) by (apply Z.pow_le_mono_r; lia).
  assert (2 ^ k <= c * 2 ^ k) by nia.
  lia.
Qed.

(** The literals of the code on a grid of step [1 / 2^k]. *)
Lemma offset_is_dyadic (f : float) (c k : Z) :
  is_dyadic f c 0 -> 0 <= c <= 115 -> 0 <= k <= 52 ->
  is_dyadic f (c * 2 ^ k) k.
Proof.
  intros Hf Hc Hk. apply whole_is_dyadic; [exact Hf | | lia].
  change (2 ^ prec) with 9007199254740992. lia.
Qed.

(** [x - c] for a literal [c] of the code and [x] on the grid, when the
    two fit in 53 bits together. *)
Lemma sub_offset (x f : float) (a c k : Z) :
  is_dyadic x a k -> is_dyadic f c 0 ->
  0 <= c <= 115 -> 0 <= k <= 52 ->
  Z.abs a + c * 2 ^ k < 2 ^ 53 ->
  is_dyadic (x - f) (a - c * 2 ^ k) k.
Proof.
  intros Hx Hf Hc Hk Hfit.
  assert (HP : 0 < 2 ^ k) by (apply Z.pow_pos_nonneg; lia).
  change (2 ^ 53) with 9007199254740992 in Hfit.
  apply sub_is_dyadic; [exact Hx | by apply offset_is_dyadic | ..];
    change (2 ^ prec) with 9007199254740992; nia.
Qed.

(** [(x - f1) - (x - f2)] is the literal [f2 - f1], exactly. *)
Lemma offsets_difference (x f1 f2 fd : float) (a c1 c2 k : Z) :
  is_dyadic (x - f1) (a - c1 * 2 ^ k) k ->
  is_dyadic (x - f2) (a - c2 * 2 ^ k) k ->
  is_dyadic fd (c2 - c1) 0 ->
  0 <= c1 <= c2 -> c2 <= 115 -> 0 <= k <= 52 ->
  Z.abs a + c2 * 2 ^ k < 2 ^ 53 ->
  (x - f1 - (x - f2))%float = fd.
Proof.
  intros H1 H2 Hd Hc1 Hc2 Hk Hfit.
  assert (HP : 0 < 2 ^ k) by (apply Z.pow_pos_nonneg; lia).
  change (2 ^ 53) with 9007199254740992 in Hfit.
  apply (is_dyadic_inj _ _ ((c2 - c1) * 2 ^ k) k);
    [| apply offset_is_dyadic; [exact Hd | lia | lia]].
  replace ((c2 - c1) * 2 ^ k) with (a - c1 * 2 ^ k - (a - c2 * 2 ^ k)) by ring.
  apply sub_is_dyadic; [exact H1 | exact H2 | ..];
    change (2 ^ prec) with 9007199254740992; nia.
Qed.

(** The horizontal extent: [wm_x2 - wm_x1] is 110, and [wm_x1] is the
    number [(wn - 115 * 2^wk) / 2^wk]. *)
Lemma width_extent_exact (pg : Page) (wn wk : Z) :
  is_dyadic (pg_width pg) wn wk ->
  0 <= wk -> 0 <= wn -> wn + 115 * 2 ^ wk < 2 ^ 53 ->
  (pg_width pg - 5 - (pg_width pg - 115))%float = 110%float
  /\ is_dyadic (pg_width pg - 115) (wn - 115 * 2 ^ wk) wk.
Proof.
  intros Hw Hwk Hwn Hwb.
  pose proof (grid_step_bound wn 115 wk Hwk Hwn ltac:(lia) Hwb) as Hwk'.
  assert (HP : 0 < 2 ^ wk) by (apply Z.pow_pos_nonneg; lia).
  assert (X1 : is_dyadic (pg_width pg - 115) (wn - 115 * 2 ^ wk) wk)
    by (apply sub_offset; [exact Hw | reflexivity | lia ..]).
  assert (X2 : is_dyadic (pg_width pg - 5) (wn - 5 * 2 ^ wk) wk)
    by (apply sub_offset; [exact Hw | reflexivity | lia ..]).
  split; [| exact X1].
  apply (offsets_difference _ _ _ _ wn 5 115 wk X2 X1); [reflexivity | lia ..].
Qed.

(** The vertical extents: [wm_y2 - wm_y1] is 25 and the strip is 8 units
    high. *)
Lemma height_extents_exact (pg : Page) (hn hk : Z) :
  is_dyadic (pg_height pg) hn hk ->
  0 <= hk -> 0 <= hn -> hn + 40 * 2 ^ hk < 2 ^ 53 ->
  (pg_height pg - 5 - (pg_height pg - 30))%float = 25%float
  /\ (pg_height pg - 30 - 2 - (pg_height pg - 30 - 10))%float = 8%float.
Proof.
  intros Hh Hhk Hhn Hhb.
  pose proof (grid_step_bound hn 40 hk Hhk Hhn ltac:(lia) Hhb) as Hhk'.
  assert (HQ : 0 < 2 ^ hk) by (apply Z.pow_pos_nonneg; lia).
  assert (Y1 : is_dyadic (pg_height pg - 30) (hn - 30 * 2 ^ hk) hk)
    by (apply sub_offset; [exact Hh | reflexivity | lia ..]).
  assert (Y2 : is_dyadic (pg_height pg - 5) (hn - 5 * 2 ^ hk) hk)
    by (apply sub_offset; [exact Hh | reflexivity | lia ..]).
  assert (S1 : is_dyadic (pg_height pg - 30 - 10) (hn - 30 * 2 ^ hk - 10 * 2 ^ hk) hk)
    by (apply sub_offset; [exact Y1 | reflexivity | lia ..]).
  assert (S2 : is_dyadic (pg_height pg - 30 - 2) (hn - 30 * 2 ^ hk - 2 * 2 ^ hk) hk)
    by (apply sub_offset; [exact Y1 | reflexivity | lia ..]).
  split.
  - apply (offsets_difference _ _ _ _ hn 5 30 hk Y2 Y1); [reflexivity | lia ..].
  - apply (offsets_difference _ _ _ _ (hn - 30 * 2 ^ hk) 2 10 hk S2 S1);
      [reflexivity | lia ..].
Qed.

(** A number below zero on the grid is a float below zero. *)
Lemma negative_dyadic (x : float) (n k : Z) :
  is_dyadic x n k -> n < 0 -> - 2 ^ 53 < n -> 0 <= k <= 52 ->
  (x <? 0)%float = true.
Proof.
  intros Hx Hneg Hn Hk. change (2 ^ 53) with 9007199254740992 in Hn.
  rewrite ltb_spec, Hx, dyadic_finite;
    [| lia | change (2 ^ prec) with 9007199254740992; lia | lia].
  replace (n <? 0) with true by (symmetry; apply Z.ltb_lt; lia).
  reflexivity.
Qed.

(** C9, as the code has it.  The offsets are fixed, the extents are
    differences of rounded binary64 numbers; they are exact whenever the
    page size and the offsets fit in 53 bits together.  For every page
    whose width is a number [wn / 2^wk] with [wn + 115 * 2^wk < 2^53] and
    whose height is a number [hn / 2^hk] with [hn + 40 * 2^hk < 2^53]
    (whole numbers [wn], [hn], [wk], [hk] >= 0), the watermark rectangle
    is exactly 110 units wide and 25 units high, of positive width, and
    the strip exactly 110 units wide and 8 units high; when such a page is
    narrower than 115 units the rectangle starts left of the page edge and
    keeps its width.  With [wk] = [hk] = 0 these are the whole-unit sizes
    below 2^53 - 115; with finer steps they take in every
    single-precision number from 2^-23 up and every multiple of 2^-23
    below 2^29. *)
Theorem extents_on_dyadic_pages (pg : Page) (wn wk hn hk : Z) :
  is_dyadic (pg_width pg) wn wk ->
  is_dyadic (pg_height pg) hn hk ->
  0 <= wk -> 0 <= wn -> wn + 115 * 2 ^ wk < 2 ^ 53 ->
  0 <= hk -> 0 <= hn -> hn + 40 * 2 ^ hk < 2 ^ 53 ->
  (rect_width (watermark_rect pg) =? 110)%float = true
  /\ (rect_height (watermark_rect pg) =? 25)%float = true
  /\ (0 <? rect_width (watermark_rect pg))%float = true
  /\ (rect_width (sample_rect pg) =? 110)%float = true
  /\ (rect_height (sample_rect pg) =? 8)%float = true
  /\ (wn < 115 * 2 ^ wk -> (rx0 (watermark_rect pg) <? 0)%float = true).
Proof.
  intros Hw Hh Hwk Hwn Hwb Hhk Hhn Hhb.
  destruct (width_extent_exact pg wn wk Hw Hwk Hwn Hwb) as [EW X1].
  destruct (height_extents_exact pg hn hk Hh Hhk Hhn Hhb) as [EH ES].
  unfold rect_width, rect_height, sample_rect, watermark_rect.
  cbn [rx0 rx1 ry0 ry1]. rewrite EW, EH, ES.
  split_and!; try reflexivity.
  intros Hnarrow.
  pose proof (grid_step_bound wn 115 wk Hwk Hwn ltac:(lia) Hwb) as Hwk'.
  assert (HP : 0 < 2 ^ wk) by (apply Z.pow_pos_nonneg; lia).
  apply (negative_dyadic _ _ wk X1); lia.
Qed.

(** Single-precision page sizes, which is what MuPDF reads from a PDF:
    on every page whose width and height are single-precision numbers
    [m * 2^e] with a mantissa below 2^24 and an exponent from -46 to 28,
    so from 2^-23 up to 2^52, the extents are exact. *)
Corollary extents_on_single_precision_pages (pg : Page) (mw ew mh eh : Z) :
  Prim2SF (pg_width pg) = binary_normalize prec emax mw ew false ->
  Prim2SF (pg_height pg) = binary_normalize prec emax mh eh false ->
  0 <= mw < 2 ^ 24 -> -46 <= ew <= 28 ->
  0 <= mh < 2 ^ 24 -> -46 <= eh <= 28 ->
  fixed_extents pg = true.
Proof.
  intros Hw Hh Hmw Hew Hmh Heh.
  destruct (single_precision_on_grid mw ew Hmw Hew) as (wn & wk & Ewn & Hwk & Hwn & Hwb).
  destruct (single_precision_on_grid mh eh Hmh Heh) as (hn & hk & Ehn & Hhk & Hhn & Hhb).
  rewrite Ewn in Hw. rewrite Ehn in Hh.
  assert (HQ : 0 < 2 ^ hk) by (apply Z.pow_pos_nonneg; lia).
  destruct (width_extent_exact pg wn wk Hw Hwk Hwn Hwb) as [EW _].
  destruct (height_extents_exact pg hn hk Hh Hhk Hhn ltac:(lia)) as [EH ES].
  unfold fixed_extents, rect_width, rect_height, sample_rect, watermark_rect.
  cbn [rx0 rx1 ry0 ry1]. rewrite EW, EH, ES. reflexivity.
Qed.

(** Whole-unit sizes are on the grid of step 1: on every page of
    whole-unit width and height below 2^53 - 115 the extents are exact. *)
Corollary extents_on_whole_unit_pages wn hn body drawn :
  0 <= wn -> wn + 115 < 2 ^ 53 ->
  0 <= hn -> hn + 40 < 2 ^ 53 ->
  fixed_extents (whole_unit_page wn hn body drawn) = true.
Proof.
  intros Hwn Hwb Hhn Hhb.
  assert (Hw : is_dyadic (pg_width (whole_unit_page wn hn body drawn)) wn 0)
    by (apply float_of_int_is_dyadic; change (2 ^ 53) with 9007199254740992 in *;
        change (2 ^ 63) with 9223372036854775808; lia).
  assert (Hh : is_dyadic (pg_height (whole_unit_page wn hn body drawn)) hn 0)
    by (apply float_of_int_is_dyadic; change (2 ^ 53) with 9007199254740992 in *;
        change (2 ^ 63) with 9223372036854775808; lia).
  destruct (width_extent_exact _ wn 0 Hw ltac:(lia) Hwn) as [EW _];
    [change (2 ^ 0) with 1; lia |].
  destruct (height_extents_exact _ hn 0 Hh ltac:(lia) Hhn) as [EH ES];
    [change (2 ^ 0) with 1; lia |].
  unfold fixed_extents, rect_width, rect_height, sample_rect, watermark_rect.
  cbn [rx0 rx1 ry0 ry1]. rewrite EW, EH, ES. reflexivity.
Qed.

(** ** The claims on concrete inputs *)

Lemma world_with_input pages : w_fs (world_with pages) !! "in.pdf" = Some (PdfFile pages).
Proof. apply lookup_singleton_eq. Qed.

(** C1 on three letter pages. *)
Lemma three_letter_pages_kept :
  exists w' pages',
    remove_watermark stub_render always_saved "in.pdf" "out.pdf"
      (world_with [letter_page; letter_page; letter_page])
    = (w', Ok (mkResult 3))
    /\ w_fs w' !! "out.pdf" = Some (PdfFile pages')
    /\ length pages' = 3%nat
    /\ Forall2 (fun pg pg' =>
                  pg_width pg' = pg_width pg /\ pg_height pg' = pg_height pg)
               [letter_page; letter_page; letter_page] pages'.
Proof.
  apply (page_count_and_dimensions_invariant stub_render always_saved
           "in.pdf" "out.pdf" [letter_page; letter_page; letter_page]
           (world_with [letter_page; letter_page; letter_page])).
  - reflexivity.
  - vm_compute. reflexivity.
  - reflexivity.
Defined.

(** C3 on a letter page: 220 columns of uniform background. *)
Lemma letter_strip_sampled :
  Matrix_scale 2 2 = mkMatrix 2 0 0 2 0 0
  /\ exists ds,
       process_page stub_render 0 letter_page blank =
         (add_log blank
            (CGetPixmap 0 (mkMatrix 2 0 0 2 0 0) (sample_rect letter_page)
             :: map (CDrawRect 0) ds),
          Ok (add_drawings letter_page ds))
       /\ length ds = N.to_nat (img_width (uniform_strip 220 16))
       /\ forall x : nat, (x < N.to_nat (img_width (uniform_strip 220 16)))%nat ->
            exists d cr cg cb rest,
              ds !! x = Some d
              /\ img_at (uniform_strip 220 16) (Z.of_nat x)
                   (Z.of_N (img_height (uniform_strip 220 16)) / 2)
                 = cr :: cg :: cb :: rest
              /\ d_fill d = ((float_of_int cr / 255)%float,
                             (float_of_int cg / 255)%float,
                             (float_of_int cb / 255)%float)
              /\ (0 <= cr <= 255 -> 0 <= cg <= 255 -> 0 <= cb <= 255 ->
                  unit_interval (d_fill d).1.1 = true
                  /\ unit_interval (d_fill d).1.2 = true
                  /\ unit_interval (d_fill d).2 = true).
Proof.
  apply (strip_sampled_per_column stub_render 0 letter_page
           (uniform_strip 220 16) blank).
  - reflexivity.
  - vm_compute. reflexivity.
Defined.

(** C4 on a letter page: 220 rectangles of half a unit each. *)
Lemma letter_columns_drawn :
  1 <= Z.of_N (img_width (uniform_strip 220 16))
  /\ exists ds,
       process_page stub_render 0 letter_page blank =
         (add_log blank
            (CGetPixmap 0 (Matrix_scale 2 2) (sample_rect letter_page)
             :: map (CDrawRect 0) ds),
          Ok (add_drawings letter_page ds))
       /\ Z.of_nat (length ds) = Z.of_N (img_width (uniform_strip 220 16))
       /\ forall x : nat, Z.of_nat x < Z.of_N (img_width (uniform_strip 220 16)) ->
            ds !! x =
            Some (mkDrawing
                    (mkRect
                       (pg_width letter_page - 115
                        + float_of_int (Z.of_nat x)
                          * ((pg_width letter_page - 5 - (pg_width letter_page - 115))
                             / float_of_int (Z.of_N (img_width (uniform_strip 220 16)))))
                       (pg_height letter_page - 30)
                       (pg_width letter_page - 115
                        + float_of_int (Z.of_nat x + 1)
                          * ((pg_width letter_page - 5 - (pg_width letter_page - 115))
                             / float_of_int (Z.of_N (img_width (uniform_strip 220 16)))))
                       (pg_height letter_page - 5))
                    (sampled_color (uniform_strip 220 16) (Z.of_nat x))
                    (sampled_color (uniform_strip 220 16) (Z.of_nat x))).
Proof.
  apply (one_rectangle_per_column stub_render 0 letter_page
           (uniform_strip 220 16) blank).
  - reflexivity.
  - vm_compute. reflexivity.
Defined.

(** The first and the last of the 220 rectangles drawn on a letter page. *)
Example letter_first_and_last_column :
  cover letter_page (uniform_strip 220 16) !! 0%nat
  = Some (mkDrawing (mkRect 497 762 497.5 787)
            (normalize 230, normalize 230, normalize 242)
            (normalize 230, normalize 230, normalize 242))
  /\ cover letter_page (uniform_strip 220 16) !! 219%nat
     = Some (mkDrawing (mkRect 606.5 762 607 787)
               (normalize 230, normalize 230, normalize 242)
               (normalize 230, normalize 230, normalize 242)).
Proof. split; vm_compute; reflexivity. Qed.

(** C5 on a document with a narrow page: the call returns, and the narrow
    page was drawn on. *)
Lemma narrow_page_run_draws :
  exists pages pages',
    w_fs (world_with [letter_page; narrow_page]) !! "in.pdf" = Some (PdfFile pages)
    /\ w_fs (remove_watermark stub_render always_saved "in.pdf" "out.pdf"
               (world_with [letter_page; narrow_page])).1 !! "out.pdf"
       = Some (PdfFile pages')
    /\ pages_processed (mkResult 2) = Z.of_nat (length pages)
    /\ Forall2 (fun pg pg' =>
                  exists img,
                    stub_render pg (Matrix_scale 2 2) (sample_rect pg) = Some img
                    /\ (0 < img_width img)%N
                    /\ pg_drawn pg' = pg_drawn pg ++ cover pg img
                    /\ length (cover pg img) = N.to_nat (img_width img))
               pages pages'.
Proof.
  apply (no_page_is_skipped stub_render always_saved "in.pdf" "out.pdf"
           (world_with [letter_page; narrow_page])).
  vm_compute. reflexivity.
Defined.

(** C5 as written fails: on a document with a letter page and a page 100
    units wide, the narrow page is not left as it was. *)
Lemma narrow_page_is_drawn_on :
  ~ narrow_pages_skipped stub_render always_saved "in.pdf" "out.pdf"
      (world_with [letter_page; narrow_page]).
Proof.
  intros Hskip.
  destruct (Hskip [letter_page; narrow_page] (world_with_input _))
    as (w' & pages' & Hrun & Hout & Hsame).
  { apply Exists_cons_tl, Exists_cons_hd. reflexivity. }
  pose proof (remove_watermark_run stub_render always_saved "in.pdf" "out.pdf"
                (world_with [letter_page; narrow_page])) as Hcases.
  cbv zeta in Hcases. rewrite world_with_input in Hcases.
  replace (forallb (strip_ok stub_render) [letter_page; narrow_page])
    with true in Hcases by (vm_compute; reflexivity).
  cbn [always_saved] in Hcases. rewrite Hcases in Hrun.
  injection Hrun as <-. cbn [w_fs] in Hout.
  rewrite lookup_insert_eq in Hout. injection Hout as <-.
  inversion Hsame as [| ? ? ? ? _ Hrest]; subst.
  inversion Hrest as [| ? ? ? ? Hnarrow _]; subst.
  specialize (Hnarrow eq_refl). apply (f_equal length) in Hnarrow.
  vm_compute in Hnarrow. discriminate.
Qed.

(** C6 on an input path that does not exist: the call raises, and the
    file system is as it was. *)
Lemma missing_input_creates_nothing :
  (remove_watermark stub_render always_saved "nonexistent.pdf" "out.pdf"
     (world_with [letter_page])).2 = Raise FileNotFoundError
  /\ w_fs (remove_watermark stub_render always_saved "nonexistent.pdf" "out.pdf"
             (world_with [letter_page])).1 = w_fs (world_with [letter_page])
  /\ w_writes (remove_watermark stub_render always_saved "nonexistent.pdf" "out.pdf"
                 (world_with [letter_page])).1 = w_writes (world_with [letter_page]).
Proof.
  destruct (failure_before_save_leaves_no_output stub_render always_saved
              "nonexistent.pdf" "out.pdf" (world_with [letter_page]))
    as [Hmissing _].
  apply Hmissing. vm_compute. reflexivity.
Defined.

(** C6 as written fails: when the save fails part way, the call raises
    and the output path, empty before the call, holds what the save left
    there. *)
Lemma partial_output_after_failed_save :
  (remove_watermark stub_render interrupted_save "in.pdf" "out.pdf"
     (world_with [letter_page])).2 = Raise SaveError
  /\ w_fs (world_with [letter_page]) !! "out.pdf" = None
  /\ w_fs (remove_watermark stub_render interrupted_save "in.pdf" "out.pdf"
             (world_with [letter_page])).1 !! "out.pdf" = Some (OtherFile "%PDF-1.7")
  /\ ~ output_kept_on_failure stub_render interrupted_save "in.pdf" "out.pdf"
        (world_with [letter_page]).
Proof.
  split_and!; try (vm_compute; reflexivity).
  intros Hkept. specialize (Hkept SaveError ltac:(vm_compute; reflexivity)).
  vm_compute in Hkept. discriminate.
Qed.

(** C7 on two worlds that share the input file and nothing else. *)
Lemma same_input_same_run :
  (remove_watermark stub_render always_saved "in.pdf" "out.pdf"
     (world_with [letter_page])).2
  = (remove_watermark stub_render always_saved "in.pdf" "out.pdf"
       (busy_world [letter_page])).2
  /\ (exists calls,
        w_log (remove_watermark stub_render always_saved "in.pdf" "out.pdf"
                 (world_with [letter_page])).1
        = w_log (world_with [letter_page]) ++ calls
        /\ w_log (remove_watermark stub_render always_saved "in.pdf" "out.pdf"
                    (busy_world [letter_page])).1
           = w_log (busy_world [letter_page]) ++ calls)
  /\ (forall res,
        (remove_watermark stub_render always_saved "in.pdf" "out.pdf"
           (world_with [letter_page])).2 = Ok res ->
        (remove_watermark stub_render always_saved "in.pdf" "out.pdf"
           (busy_world [letter_page])).2 = Ok res
        /\ exists pages',
             w_fs (remove_watermark stub_render always_saved "in.pdf" "out.pdf"
                     (world_with [letter_page])).1 !! "out.pdf"
             = Some (PdfFile pages')
             /\ w_fs (remove_watermark stub_render always_saved "in.pdf" "out.pdf"
                        (busy_world [letter_page])).1 !! "out.pdf"
                = Some (PdfFile pages')).
Proof.
  apply (remove_watermark_deterministic stub_render always_saved
           "in.pdf" "out.pdf" (world_with [letter_page]) (busy_world [letter_page])).
  vm_compute. reflexivity.
Defined.

(** C8.  The handle is not released on the paths that raise: the code
    has no [try]/[finally] and no [with] block, and [doc.close()] comes
    after [doc.save()] in straight-line code.  On an input that opens as a
    document but is not a PDF (here a scanned page kept as an image) the
    first [draw_rect] raises ValueError and the call ends with the
    document still open, three calls made and none of them a close; the
    same happens on a PDF whose second page does not rasterise, and on a
    PDF whose save fails. *)
Theorem handle_left_open_on_error :
  (remove_watermark stub_render always_saved "scan.png" "out.pdf" scan_world).2
  = Raise ValueError
  /\ w_open scan_world = []
  /\ w_open (remove_watermark stub_render always_saved "scan.png" "out.pdf"
               scan_world).1 = ["scan.png"]
  /\ (exists d,
        w_log (remove_watermark stub_render always_saved "scan.png" "out.pdf"
                 scan_world).1
        = [COpen "scan.png";
           CGetPixmap 0 (Matrix_scale 2 2) (sample_rect letter_page);
           CDrawRect 0 d])
  /\ ~ released_on_exit stub_render always_saved "scan.png" "out.pdf" scan_world
  /\ (remove_watermark stub_render always_saved "in.pdf" "out.pdf"
        (world_with [letter_page; sliver_page])).2 = Raise RenderError
  /\ w_open (remove_watermark stub_render always_saved "in.pdf" "out.pdf"
               (world_with [letter_page; sliver_page])).1 = ["in.pdf"]
  /\ ~ released_on_exit stub_render always_saved "in.pdf" "out.pdf"
        (world_with [letter_page; sliver_page])
  /\ (remove_watermark stub_render interrupted_save "in.pdf" "out.pdf"
        (world_with [letter_page])).2 = Raise SaveError
  /\ w_open (remove_watermark stub_render interrupted_save "in.pdf" "out.pdf"
               (world_with [letter_page])).1 = ["in.pdf"].
Proof.
  split_and!; try (vm_compute; reflexivity).
  - eexists. vm_compute. reflexivity.
  - unfold released_on_exit. vm_compute. discriminate.
  - unfold released_on_exit. vm_compute. discriminate.
Qed.

(** On a letter page the call returns with the handle closed. *)
Example letter_run_closes_handle :
  w_open (remove_watermark stub_render always_saved "in.pdf" "out.pdf"
            (world_with [letter_page])).1 = w_open (world_with [letter_page])
  /\ exists calls,
       w_log (remove_watermark stub_render always_saved "in.pdf" "out.pdf"
                (world_with [letter_page])).1
       = w_log (world_with [letter_page]) ++ calls ++ [CClose "in.pdf"].
Proof.
  destruct (handle_after_run stub_render always_saved
              "in.pdf" "out.pdf" (world_with [letter_page]))
    as [Hreturns _].
  apply (Hreturns (mkResult 1)). vm_compute. reflexivity.
Qed.

Example sliver_page_run :
  (remove_watermark stub_render always_saved "in.pdf" "out.pdf"
     (world_with [letter_page; sliver_page])).2 = Raise RenderError
  /\ w_open (remove_watermark stub_render always_saved "in.pdf" "out.pdf"
               (world_with [letter_page; sliver_page])).1 = ["in.pdf"]
  /\ w_fs (remove_watermark stub_render always_saved "in.pdf" "out.pdf"
             (world_with [letter_page; sliver_page])).1 !! "out.pdf" = None.
Proof. split_and!; vm_compute; reflexivity. Qed.

(** C9 on an A4 page in single precision: 9753002 / 2^14 by
    13793526 / 2^14 units. *)
Lemma a4_page_extents :
  (rect_width (watermark_rect a4_page) =? 110)%float = true
  /\ (rect_height (watermark_rect a4_page) =? 25)%float = true
  /\ (0 <? rect_width (watermark_rect a4_page))%float = true
  /\ (rect_width (sample_rect a4_page) =? 110)%float = true
  /\ (rect_height (sample_rect a4_page) =? 8)%float = true
  /\ (9753002 < 115 * 2 ^ 14 -> (rx0 (watermark_rect a4_page) <? 0)%float = true).
Proof.
  apply (extents_on_dyadic_pages a4_page 9753002 14 13793526 14).
  - vm_compute. reflexivity.
  - vm_compute. reflexivity.
  - lia.
  - lia.
  - reflexivity.
  - lia.
  - lia.
  - reflexivity.
Defined.

(** The same on a page 100.5 units wide and 7.3 units high in single
    precision (201 / 2 by 15309210 / 2^21): the rectangle starts left of
    the page and keeps its width. *)
Example small_page_extents :
  is_dyadic (pg_width small_page) 201 1
  /\ is_dyadic (pg_height small_page) 15309210 21
  /\ fixed_extents small_page = true
  /\ (rx0 (watermark_rect small_page) <? 0)%float = true.
Proof. split_and!; vm_compute; reflexivity. Qed.

(** C9 as written fails: on a page 2^100 units wide both [w - 115] and
    [w - 5] round to [w], and the watermark rectangle has width zero. *)
Lemma extents_not_fixed :
  rx0 (watermark_rect huge_page) = pg_width huge_page
  /\ rx1 (watermark_rect huge_page) = pg_width huge_page
  /\ rect_width (watermark_rect huge_page) = 0%float
  /\ (0 <? rect_width (watermark_rect huge_page))%float = false
  /\ fixed_extents huge_page = false
  /\ ~ (forall pg, fixed_extents pg = true).
Proof.
  split_and!; try (vm_compute; reflexivity).
  intros H. specialize (H huge_page). vm_compute in H. discriminate.
Qed.

(** The bound of 53 bits cannot be traded for a bound on the size alone:
    the binary64 number nearest to 7.3 has 53 significant bits, and on a
    page of that height the strip comes out 8.000000000000004 units
    high.  (No page box read by MuPDF, which is in single precision, has
    such a height.) *)
Example full_precision_height_rounds :
  rect_height (sample_rect short_page) = 0x1.0000000000002p+3%float
  /\ fixed_extents short_page = false.
Proof. split; vm_compute; reflexivity. Qed.

(** C10 on distinct paths. *)
Lemma input_file_untouched :
  w_fs (remove_watermark stub_render always_saved "in.pdf" "out.pdf"
          (world_with [letter_page])).1 !! "in.pdf"
  = w_fs (world_with [letter_page]) !! "in.pdf"
  /\ (forall p, p <> "out.pdf" ->
        w_fs (remove_watermark stub_render always_saved "in.pdf" "out.pdf"
                (world_with [letter_page])).1 !! p
        = w_fs (world_with [letter_page]) !! p)
  /\ (forall p,
        In p (w_writes (remove_watermark stub_render always_saved "in.pdf" "out.pdf"
                          (world_with [letter_page])).1) ->
        In p (w_writes (world_with [letter_page])) \/ p = "out.pdf").
Proof.
  apply (only_output_path_written stub_render always_saved "in.pdf" "out.pdf"
           (world_with [letter_page])).
  discriminate.
Defined.

(** * Further properties of [remove_watermark] *)

Lemma for_each_app {A B : Type} (body : B -> A -> M B) xs ys : forall b w,
  for_each body (xs ++ ys) b w =
  match for_each body xs b w with
  | (w', Ok b') => for_each body ys b' w'
  | (w', Raise e) => (w', Raise e)
  end.
Proof.
  induction xs as [| x xs IH]; intros b w; [reflexivity |].
  cbn [app]. rewrite !for_each_cons.
  destruct (body b x w) as [w1 [b1 | e]]; [apply IH | reflexivity].
Qed.

Lemma for_each_ext {A B : Type} (body1 body2 : B -> A -> M B) xs :
  (forall b x w, In x xs -> body1 b x w = body2 b x w) ->
  forall b w, for_each body1 xs b w = for_each body2 xs b w.
Proof.
  induction xs as [| x xs IH]; intros Hext b w; [reflexivity |].
  rewrite !for_each_cons, Hext by (by left).
  destruct (body2 b x w) as [w1 [b1 | e]]; [| reflexivity].
  apply IH. intros b' x' w' Hin. apply Hext. by right.
Qed.

Lemma range_succ (n : nat) : range (Z.of_nat (S n)) = range (Z.of_nat n) ++ [Z.of_nat n].
Proof.
  unfold range. rewrite !Nat2Z.id, seq_S, map_app. reflexivity.
Qed.

Lemma range_split (n : Z) (k : nat) :
  Z.of_nat k < n ->
  exists rest, range n = range (Z.of_nat k) ++ Z.of_nat k :: rest.
Proof.
  intros Hk. unfold range. rewrite Nat2Z.id.
  replace (Z.to_nat n) with (k + S (Z.to_nat n - S k))%nat by lia.
  rewrite seq_app, map_app. simpl. eauto.
Qed.

Lemma in_range_bounds (n x : Z) : In x (range n) -> 0 <= x < n.
Proof.
  unfold range. intros H. apply in_map_iff in H as (k & <- & Hk).
  apply in_seq in Hk. lia.
Qed.

Section Further.

Variable render : Page -> Matrix -> Rect -> option Image.
Variable save_outcome : Document -> string -> SaveOutcome.

(** X1. Nothing on a page is removed or reordered.  After a call that
    returns, every page of the output has the body of the input page and
    the input page's drawings, in their order, followed by the rectangles
    added; every rectangle added has its outline colour equal to its fill
    colour and runs from height - 30 to height - 5. *)
Theorem page_content_kept inp out w w' res :
  remove_watermark render save_outcome inp out w = (w', Ok res) ->
  exists pages pages',
    w_fs w !! inp = Some (PdfFile pages)
    /\ w_fs w' !! out = Some (PdfFile pages')
    /\ Forall2 (fun pg pg' =>
                  pg_body pg' = pg_body pg
                  /\ exists added,
                       pg_drawn pg' = pg_drawn pg ++ added
                       /\ Forall (fun d =>
                                    d_color d = d_fill d
                                    /\ ry0 (d_rect d) = (pg_height pg - 30)%float
                                    /\ ry1 (d_rect d) = (pg_height pg - 5)%float)
                                 added)
               pages pages'.
Proof.
  pose proof (remove_watermark_run render save_outcome inp out w) as Hrun.
  cbv zeta in Hrun.
  destruct (w_fs w !! inp) as [[pages | pages | bytes] |] eqn:Hin;
    [| destruct Hrun as (calls & e & _ & ->); discriminate
     | rewrite Hrun; discriminate ..].
  destruct (forallb (strip_ok render) pages);
    [| destruct Hrun as (calls & e & _ & ->); discriminate].
  destruct (save_outcome _ out) as [| [left |]]; rewrite Hrun; try discriminate.
  intros H. injection H as <- <-.
  exists pages, (map (covered_page render) pages).
  split; [done |]. split; [apply lookup_insert_eq |].
  clear. induction pages as [| pg pages IH]; cbn [map]; constructor; [| exact IH].
  unfold covered_page.
  destruct (render pg (Matrix_scale 2 2) (sample_rect pg)) as [img |].
  - split; [done |]. exists (cover pg img). split; [done |].
    unfold cover. apply Forall_map, Forall_forall. intros x _. by cbn.
  - split; [done |]. exists []. by rewrite app_nil_r.
Qed.

(** X3. A strip image with no column makes the page raise
    ZeroDivisionError, before any pixel is read; one with columns and no
    row makes it raise IndexError at the first pixel.  Either way no
    rectangle is drawn on the page. *)
Theorem empty_image_raises i pg img w :
  render pg (Matrix_scale 2 2) (sample_rect pg) = Some img ->
  (img_width img = 0 \/ img_height img = 0)%N ->
  process_page render i pg w =
  (add_log w [CGetPixmap i (Matrix_scale 2 2) (sample_rect pg)],
   Raise (if (img_width img =? 0)%N then ZeroDivisionError else IndexError)).
Proof.
  intros Himg Hempty. unfold process_page, process_page_in, strip_image.
  rewrite !bind_run. cbn [call]. rewrite Himg. cbn [mret M_ret].
  destruct (img_width img =? 0)%N eqn:Hw; [reflexivity |].
  apply N.eqb_neq in Hw. destruct Hempty as [Hw0 | Hh0]; [done |].
  destruct (range_split (Z.of_N (img_width img)) 0 ltac:(lia)) as [rest ->].
  change (range (Z.of_nat 0) ++ Z.of_nat 0 :: rest) with (0 :: rest).
  rewrite for_each_cons. unfold draw_column at 1, getpixel.
  rewrite bind_run, Hh0. cbn [Z.of_N].
  replace ((0 <=? 0) && (0 <? Z.of_N (img_width img)) && (0 <=? 0 / 2)
           && (0 / 2 <? 0)) with false by (by rewrite andb_false_r).
  reflexivity.
Qed.

Lemma pixel_in_range img x :
  (0 < img_height img)%N ->
  0 <= x < Z.of_N (img_width img) ->
  (0 <=? x) && (x <? Z.of_N (img_width img))
  && (0 <=? Z.of_N (img_height img) / 2)
  && (Z.of_N (img_height img) / 2 <? Z.of_N (img_height img)) = true.
Proof.
  intros Hh Hx. rewrite !andb_true_iff, !Z.leb_le, !Z.ltb_lt.
  assert (0 <= Z.of_N (img_height img) / 2 < Z.of_N (img_height img)).
  { split; [apply Z.div_pos; lia | apply Z.div_lt; lia]. }
  lia.
Qed.

(** X4. A strip image with fewer than three bands stops the page at
    its first column, before anything is drawn: with one band (a
    grey-scale or palette image) the pixel is an [int] and slicing it
    raises TypeError, with two bands (grey-scale with alpha) the
    unpacking into [r, g, b] raises ValueError.  The only library call
    made for the page is [get_pixmap]. *)
Theorem few_bands_stop_the_page i pg img w (bands : nat) :
  render pg (Matrix_scale 2 2) (sample_rect pg) = Some img ->
  (0 < img_width img)%N ->
  (0 < img_height img)%N ->
  (forall x y, length (img_at img x y) = bands) ->
  (1 <= bands <= 2)%nat ->
  process_page render i pg w =
  (add_log w [CGetPixmap i (Matrix_scale 2 2) (sample_rect pg)],
   Raise (if (bands =? 1)%nat then TypeError else ValueError)).
Proof.
  intros Himg Hw Hh Hbands Hfew. unfold process_page, process_page_in, strip_image.
  rewrite !bind_run. cbn [call]. rewrite Himg. cbn [mret M_ret].
  destruct (img_width img =? 0)%N eqn:Hw0; [apply N.eqb_eq in Hw0; lia |].
  destruct (range_head (Z.of_N (img_width img))) as [rest ->]; [lia |].
  rewrite for_each_cons. unfold draw_column at 1, getpixel.
  rewrite bind_run, pixel_in_range by (done || lia).
  cbn [mret M_ret].
  specialize (Hbands 0 (Z.of_N (img_height img) / 2)).
  destruct (img_at img 0 (Z.of_N (img_height img) / 2)) as [| a [| b [| c rest']]];
    simpl in Hbands; subst bands; try lia; reflexivity.
Qed.

Lemma draw_column_calls pdf i img wm cw pg x w :
  exists calls,
    w_log (draw_column pdf i img wm cw pg x w).1 = w_log w ++ calls
    /\ Forall (fun c => call_page c = Some i) calls.
Proof.
  unfold draw_column, getpixel. rewrite bind_run.
  destruct (_ && _); cbn [mret M_ret raise fst snd];
    [| exists []; by rewrite app_nil_r].
  destruct (img_at img x (Z.of_N (img_height img) / 2))
    as [| a [| b [| c rest]]]; cbn [take raise fst snd];
    try (exists []; by rewrite app_nil_r).
  exists [CDrawRect i (mkDrawing (col_rect wm cw x)
                         (normalize a, normalize b, normalize c)
                         (normalize a, normalize b, normalize c))].
  split; [by destruct pdf |]. by constructor.
Qed.

Lemma draw_columns_calls pdf i img wm cw xs : forall pg w,
  exists calls,
    w_log (for_each (draw_column pdf i img wm cw) xs pg w).1 = w_log w ++ calls
    /\ Forall (fun c => call_page c = Some i) calls.
Proof.
  induction xs as [| x xs IH]; intros pg w.
  - exists []. by rewrite app_nil_r.
  - rewrite for_each_cons.
    destruct (draw_column_calls pdf i img wm cw pg x w) as (c1 & Hc1 & Hf1).
    destruct (draw_column pdf i img wm cw pg x w) as [w1 [pg1 | e]];
      cbn [fst snd] in *; [| by exists c1].
    destruct (IH pg1 w1) as (c2 & Hc2 & Hf2).
    exists (c1 ++ c2). rewrite Hc2, Hc1, app_assoc. split; [done |].
    by apply Forall_app.
Qed.

(** Every call made for a page carries the number of that page. *)
Lemma process_page_calls i pg w :
  exists calls,
    w_log (process_page render i pg w).1 = w_log w ++ calls
    /\ Forall (fun c => call_page c = Some i) calls.
Proof.
  unfold process_page, process_page_in, strip_image. rewrite !bind_run. cbn [call].
  destruct (render pg (Matrix_scale 2 2) (sample_rect pg)) as [img |];
    cbn [mret M_ret raise fst snd];
    [| eexists [_]; split; [reflexivity | by constructor]].
  destruct (img_width img =? 0)%N; cbn [raise fst snd];
    [eexists [_]; split; [reflexivity | by constructor] |].
  match goal with
  | |- context [for_each ?body ?xs ?b ?w0] =>
      destruct (draw_columns_calls true i img (watermark_rect pg)
                  ((rx1 (watermark_rect pg) - rx0 (watermark_rect pg))
                   / float_of_int (Z.of_N (img_width img)))%float xs b w0)
        as (calls & -> & Hcalls)
  end.
  cbn [log_call w_log]. rewrite <- app_assoc.
  eexists. split; [reflexivity |]. by constructor.
Qed.

Lemma enumerate_from_app {A : Type} (l1 l2 : list A) : forall k,
  combine (seq k (length (l1 ++ l2))) (l1 ++ l2) =
  combine (seq k (length l1)) l1
  ++ combine (seq (k + length l1) (length l2)) l2.
Proof.
  induction l1 as [| a l1 IH]; intros k.
  - cbn [app length seq combine]. by rewrite Nat.add_0_r.
  - cbn [app length seq combine]. rewrite IH, Nat.add_succ_r. reflexivity.
Qed.

Lemma enumerate_app {A : Type} (l1 l2 : list A) :
  enumerate (l1 ++ l2) =
  enumerate l1 ++ combine (seq (length l1) (length l2)) l2.
Proof. unfold enumerate. by rewrite enumerate_from_app. Qed.

(** X5. The pages are processed in order and the call stops at the
    first page whose strip cannot be rasterised or read: the pages before
    it were rasterised and drawn on in full, the exception is one raised
    while processing a page, every call made after theirs is for the
    failing page (no later page is rasterised or drawn on), the document
    stays open, and nothing is saved or written. *)
Theorem stops_at_first_failing_page inp out w good bad rest :
  w_fs w !! inp = Some (PdfFile (good ++ bad :: rest)) ->
  forallb (strip_ok render) good = true ->
  strip_ok render bad = false ->
  exists calls e,
    remove_watermark render save_outcome inp out w =
      (mkWorld (w_fs w) (inp :: w_open w) (w_writes w)
               (w_log w ++ COpen inp
                           :: flat_map (page_calls render) (enumerate good)
                           ++ calls),
       Raise e)
    /\ page_exn e = true
    /\ Forall (fun c => call_page c = Some (length good)) calls.
Proof.
  intros Hin Hgood Hbad.
  rewrite remove_watermark_cases, Hin. cbv zeta.
  rewrite enumerate_app, for_each_app.
  rewrite pages_ok by (by rewrite enumerate_snd).
  cbn [length seq combine]. rewrite for_each_cons, page_step_run.
  pose proof (process_page_log_only render (length good) bad) as Hlog.
  destruct (process_page_calls (length good) bad blank) as (calls & Hcalls & Hon).
  match goal with
  | |- context [process_page render ?i ?pg ?w0] => rewrite (Hlog w0)
  end.
  destruct (process_page render (length good) bad blank) as [wb [pg' | e]] eqn:Hb;
    cbn [fst snd] in *.
  - apply process_page_inv in Hb. congruence.
  - exists calls, e. rewrite Hcalls. cbn [app].
    split; [| split; [by apply process_page_exn in Hb | done]].
    unfold add_log. cbn [w_fs w_open w_writes w_log].
    by rewrite <- !app_assoc.
Qed.

Lemma draw_column_same_pixels i img1 img2 wm cw pg x w :
  img_width img1 = img_width img2 ->
  (0 < img_height img1)%N ->
  (0 < img_height img2)%N ->
  0 <= x < Z.of_N (img_width img1) ->
  take 3 (img_at img1 x (Z.of_N (img_height img1) / 2))
  = take 3 (img_at img2 x (Z.of_N (img_height img2) / 2)) ->
  draw_column true i img1 wm cw pg x w = draw_column true i img2 wm cw pg x w.
Proof.
  intros Hw Hh1 Hh2 Hx Hpx. unfold draw_column, getpixel.
  rewrite !bind_run, !pixel_in_range by (done || lia).
  cbn [mret M_ret]. rewrite <- Hpx.
  destruct (img_at img1 x (Z.of_N (img_height img1) / 2)) as [| a1 [| b1 [| c1 r1]]];
    destruct (img_at img2 x (Z.of_N (img_height img2) / 2)) as [| a2 [| b2 [| c2 r2]]];
    cbn [take] in Hpx |- *; try discriminate; reflexivity.
Qed.

(** X6. Only the middle row of the strip image and the first three
    channels of its pixels are read.  Two rasterisers whose images for a
    page have the same width, at least one row each, and the same first
    three channels along their middle rows give the same page, the same
    calls and the same exception if any, whatever the other rows, a
    fourth channel or the heights are. *)
Theorem only_middle_row_rgb_is_read
    (render' : Page -> Matrix -> Rect -> option Image) i pg img img' w :
  render pg (Matrix_scale 2 2) (sample_rect pg) = Some img ->
  render' pg (Matrix_scale 2 2) (sample_rect pg) = Some img' ->
  img_width img = img_width img' ->
  (0 < img_height img)%N ->
  (0 < img_height img')%N ->
  (forall x, 0 <= x < Z.of_N (img_width img) ->
     take 3 (img_at img x (Z.of_N (img_height img) / 2))
     = take 3 (img_at img' x (Z.of_N (img_height img') / 2))) ->
  process_page render i pg w = process_page render' i pg w.
Proof.
  intros Himg Himg' Hw Hh Hh' Hpx. unfold process_page, process_page_in, strip_image.
  rewrite !bind_run. cbn [call]. rewrite Himg, Himg'. cbn [mret M_ret].
  rewrite <- Hw. destruct (img_width img =? 0)%N; [reflexivity |].
  apply for_each_ext. intros b x w0 Hx. apply in_range_bounds in Hx.
  by apply draw_column_same_pixels; auto.
Qed.

(** X7. Running the function on its own output adds a second layer: when
    the strips of the pages rasterise before and after the first run and
    the saves go through, both runs return the same page count, the
    handles open at the end are those open at the start, and every page
    of the second output has the width, height, body and drawings of the
    input page, then the rectangles of the first run, then those of the
    second, each run adding at least one. *)
Theorem second_run_adds_a_layer inp mid out pages w :
  w_fs w !! inp = Some (PdfFile pages) ->
  forallb (strip_ok render) pages = true ->
  forallb (strip_ok render) (map (covered_page render) pages) = true ->
  (forall doc path, save_outcome doc path = Saved) ->
  exists w1 w2 pages2,
    remove_watermark render save_outcome inp mid w =
      (w1, Ok (mkResult (Z.of_nat (length pages))))
    /\ remove_watermark render save_outcome mid out w1 =
         (w2, Ok (mkResult (Z.of_nat (length pages))))
    /\ w_fs w2 !! out = Some (PdfFile pages2)
    /\ w_open w2 = w_open w
    /\ Forall2 (fun pg pg2 =>
                  pg_width pg2 = pg_width pg
                  /\ pg_height pg2 = pg_height pg
                  /\ pg_body pg2 = pg_body pg
                  /\ exists first second,
                       pg_drawn pg2 = pg_drawn pg ++ first ++ second
                       /\ first <> [] /\ second <> [])
               pages pages2.
Proof.
  intros Hin Hfirst Hsecond Hsave.
  pose proof (remove_watermark_run render save_outcome inp mid w) as Hrun1.
  cbv zeta in Hrun1. rewrite Hin, Hfirst, Hsave in Hrun1.
  eexists _, _, (map (covered_page render) (map (covered_page render) pages)).
  split; [exact Hrun1 |].
  match type of Hrun1 with _ = (?w1, _) => set (w1' := w1) end.
  pose proof (remove_watermark_run render save_outcome mid out w1') as Hrun2.
  cbv zeta in Hrun2.
  replace (w_fs w1' !! mid) with (Some (PdfFile (map (covered_page render) pages)))
    in Hrun2 by (symmetry; apply lookup_insert_eq).
  rewrite Hsecond, Hsave, length_map in Hrun2.
  split; [exact Hrun2 |].
  split; [apply lookup_insert_eq |]. split; [reflexivity |].
  clear -Hfirst Hsecond.
  induction pages as [| pg pages IH]; cbn [map]; constructor.
  - cbn [map forallb] in Hfirst, Hsecond.
    apply andb_prop in Hfirst as [Hpg _]. apply andb_prop in Hsecond as [Hpg2 _].
    assert (Hadds : forall p, strip_ok render p = true ->
              pg_width (covered_page render p) = pg_width p
              /\ pg_height (covered_page render p) = pg_height p
              /\ pg_body (covered_page render p) = pg_body p
              /\ exists added, pg_drawn (covered_page render p) = pg_drawn p ++ added
                               /\ added <> []).
    { intros p Hp. unfold covered_page.
      destruct (render p (Matrix_scale 2 2) (sample_rect p)) as [img |] eqn:Himg;
        [| unfold strip_ok in Hp; by rewrite Himg in Hp].
      destruct (strip_ok_columns _ _ _ Himg Hp) as [Hw _].
      split_and!; try done. exists (cover p img). split; [done |].
      intros Hnil. apply (f_equal length) in Hnil.
      rewrite cover_length in Hnil. simpl in Hnil. lia. }
    destruct (Hadds _ Hpg) as (Hw1 & Hh1 & Hb1 & first & Hd1 & Hne1).
    destruct (Hadds _ Hpg2) as (Hw2 & Hh2 & Hb2 & second & Hd2 & Hne2).
    split_and!; try congruence.
    exists first, second. split; [| done].
    by rewrite Hd2, Hd1, app_assoc.
  - apply IH; cbn [map forallb] in Hfirst, Hsecond.
    + by apply andb_prop in Hfirst as [_ ?].
    + by apply andb_prop in Hsecond as [_ ?].
Qed.

Lemma nominal_checked : all_from nominal_check 0 (Z.to_nat 14401) = true.
Proof. vm_compute. reflexivity. Qed.

(** X9. On a page a whole number of units wide, up to 14400, whose strip
    rasterises to 220 columns, the 220 rectangles cover the watermark
    rectangle exactly: the first starts at width - 115 and the last ends
    at width - 5, with no rounding error at either end. *)
Theorem nominal_strip_is_exact i wn hn body drawn img w w' pg' :
  0 <= wn <= 14400 ->
  render (whole_unit_page wn hn body drawn) (Matrix_scale 2 2)
         (sample_rect (whole_unit_page wn hn body drawn)) = Some img ->
  img_width img = 220%N ->
  process_page render i (whole_unit_page wn hn body drawn) w = (w', Ok pg') ->
  exists ds first last,
    pg_drawn pg' = drawn ++ ds
    /\ length ds = 220%nat
    /\ ds !! 0%nat = Some first
    /\ ds !! 219%nat = Some last
    /\ (rx0 (d_rect first) =? float_of_int (wn - 115))%float = true
    /\ (rx1 (d_rect last) =? float_of_int (wn - 5))%float = true.
Proof.
  intros Hwn Himg Hw Hrun.
  pose proof (process_page_inv _ _ _ _ _ _ Hrun) as Hok.
  rewrite (process_page_covers _ _ _ _ _ Himg Hok) in Hrun.
  injection Hrun as _ <-.
  eexists (cover (whole_unit_page wn hn body drawn) img), _, _.
  split; [reflexivity |]. split; [by rewrite cover_length, Hw |].
  split; [apply cover_lookup; rewrite Hw; lia |].
  split; [apply cover_lookup; rewrite Hw; lia |].
  pose proof nominal_checked as Hall.
  apply (all_from_spec _ _ _ wn) in Hall; [| lia].
  unfold nominal_check in Hall. cbv zeta in Hall.
  apply andb_prop in Hall as [Hall Hright].
  apply andb_prop in Hall as [_ Hleft].
  cbn [column_drawing d_rect]. unfold col_width_of. rewrite Hw.
  split; assumption.
Qed.

End Further.

Lemma normalize_pairs_checked :
  all_from (fun c1 => all_from (normalize_ordered c1) 0 256) 0 256 = true.
Proof. vm_compute. reflexivity. Qed.

(** X8. Over the 8-bit channel values, dividing by 255 keeps the order
    strictly: a larger channel value gives a larger number, so distinct
    sampled channel values never give the same colour component; 0 gives
    0 and 255 gives 1. *)
Theorem normalize_increasing c1 c2 :
  0 <= c1 -> c1 < c2 -> c2 <= 255 ->
  (normalize c1 <? normalize c2)%float = true
  /\ (normalize 0 =? 0)%float = true
  /\ (normalize 255 =? 1)%float = true.
Proof.
  intros H0 Hlt H255.
  split; [| split; vm_compute; reflexivity].
  pose proof normalize_pairs_checked as Hall.
  apply (all_from_spec _ _ _ c1) in Hall; [| lia].
  apply (all_from_spec _ _ _ c2) in Hall; [| lia].
  unfold normalize_ordered in Hall.
  apply orb_prop in Hall as [Hle | Hlt']; [| exact Hlt'].
  apply Z.leb_le in Hle. lia.
Qed.

(** ** The further properties on concrete inputs *)

(** X1 on a letter page and a narrow page. *)
Lemma two_pages_content_kept :
  exists pages pages',
    w_fs (world_with [letter_page; narrow_page]) !! "in.pdf" = Some (PdfFile pages)
    /\ w_fs (remove_watermark stub_render always_saved "in.pdf" "out.pdf"
               (world_with [letter_page; narrow_page])).1 !! "out.pdf"
       = Some (PdfFile pages')
    /\ Forall2 (fun pg pg' =>
                  pg_body pg' = pg_body pg
                  /\ exists added,
                       pg_drawn pg' = pg_drawn pg ++ added
                       /\ Forall (fun d =>
                                    d_color d = d_fill d
                                    /\ ry0 (d_rect d) = (pg_height pg - 30)%float
                                    /\ ry1 (d_rect d) = (pg_height pg - 5)%float)
                                 added)
               pages pages'.
Proof.
  apply (page_content_kept stub_render always_saved "in.pdf" "out.pdf"
           (world_with [letter_page; narrow_page]) _ (mkResult 2)).
  vm_compute. reflexivity.
Defined.

(** X3 on an image of 220 columns and no row. *)
Lemma rowless_image_raises :
  process_page (const_render (uniform_strip 220 0)) 0 letter_page blank =
  (add_log blank [CGetPixmap 0 (Matrix_scale 2 2) (sample_rect letter_page)],
   Raise (if (img_width (uniform_strip 220 0) =? 0)%N
          then ZeroDivisionError else IndexError)).
Proof.
  apply (empty_image_raises (const_render (uniform_strip 220 0)) 0 letter_page
           (uniform_strip 220 0) blank).
  - reflexivity.
  - right. reflexivity.
Defined.

(** X4 on a grey-scale image of four columns and two rows. *)
Lemma grey_strip_raises :
  process_page (const_render (grey_strip 4 2)) 0 letter_page blank =
  (add_log blank [CGetPixmap 0 (Matrix_scale 2 2) (sample_rect letter_page)],
   Raise (if (1 =? 1)%nat then TypeError else ValueError)).
Proof.
  apply (few_bands_stop_the_page (const_render (grey_strip 4 2)) 0 letter_page
           (grey_strip 4 2) blank 1).
  - reflexivity.
  - reflexivity.
  - reflexivity.
  - intros x y. reflexivity.
  - lia.
Defined.

(** X5 on three pages of which the second is too narrow to rasterise. *)
Lemma second_page_fails :
  exists calls e,
    remove_watermark stub_render always_saved "in.pdf" "out.pdf"
      (world_with [letter_page; sliver_page; letter_page]) =
      (mkWorld (w_fs (world_with [letter_page; sliver_page; letter_page]))
               ("in.pdf" :: w_open (world_with [letter_page; sliver_page; letter_page]))
               (w_writes (world_with [letter_page; sliver_page; letter_page]))
               (w_log (world_with [letter_page; sliver_page; letter_page])
                ++ COpen "in.pdf"
                   :: flat_map (page_calls stub_render) (enumerate [letter_page])
                   ++ calls),
       Raise e)
    /\ page_exn e = true
    /\ Forall (fun c => call_page c = Some (length [letter_page])) calls.
Proof.
  apply (stops_at_first_failing_page stub_render always_saved "in.pdf" "out.pdf"
           (world_with [letter_page; sliver_page; letter_page])
           [letter_page] sliver_page [letter_page]).
  - reflexivity.
  - vm_compute. reflexivity.
  - reflexivity.
Defined.

(** X6 on an RGB image of two rows and an RGBA image of six. *)
Lemma alpha_and_height_ignored :
  process_page (const_render (uniform_strip 4 2)) 0 letter_page blank
  = process_page (const_render (rgba_strip 4 6)) 0 letter_page blank.
Proof.
  apply (only_middle_row_rgb_is_read (const_render (uniform_strip 4 2))
           (const_render (rgba_strip 4 6)) 0 letter_page
           (uniform_strip 4 2) (rgba_strip 4 6) blank).
  - reflexivity.
  - reflexivity.
  - reflexivity.
  - reflexivity.
  - reflexivity.
  - intros x Hx. reflexivity.
Defined.

(** X7 on a letter page, run twice. *)
Lemma letter_page_covered_twice :
  exists w1 w2 pages2,
    remove_watermark stub_render always_saved "in.pdf" "mid.pdf"
      (world_with [letter_page])
    = (w1, Ok (mkResult (Z.of_nat (length [letter_page]))))
    /\ remove_watermark stub_render always_saved "mid.pdf" "out.pdf" w1
       = (w2, Ok (mkResult (Z.of_nat (length [letter_page]))))
    /\ w_fs w2 !! "out.pdf" = Some (PdfFile pages2)
    /\ w_open w2 = w_open (world_with [letter_page])
    /\ Forall2 (fun pg pg2 =>
                  pg_width pg2 = pg_width pg
                  /\ pg_height pg2 = pg_height pg
                  /\ pg_body pg2 = pg_body pg
                  /\ exists first second,
                       pg_drawn pg2 = pg_drawn pg ++ first ++ second
                       /\ first <> [] /\ second <> [])
               [letter_page] pages2.
Proof.
  apply (second_run_adds_a_layer stub_render always_saved "in.pdf" "mid.pdf" "out.pdf"
           [letter_page] (world_with [letter_page])).
  - reflexivity.
  - vm_compute. reflexivity.
  - vm_compute. reflexivity.
  - reflexivity.
Defined.

(** X8 on the channel values 229 and 230. *)
Lemma normalize_229_below_230 :
  (normalize 229 <? normalize 230)%float = true
  /\ (normalize 0 =? 0)%float = true
  /\ (normalize 255 =? 1)%float = true.
Proof. apply (normalize_increasing 229 230); lia. Defined.

(** X9 on a letter page: the cover runs from 497 to 607. *)
Lemma letter_cover_is_exact :
  exists ds first last,
    pg_drawn (covered_page stub_render (whole_unit_page 612 792 "letter" []))
    = [] ++ ds
    /\ length ds = 220%nat
    /\ ds !! 0%nat = Some first
    /\ ds !! 219%nat = Some last
    /\ (rx0 (d_rect first) =? float_of_int (612 - 115))%float = true
    /\ (rx1 (d_rect last) =? float_of_int (612 - 5))%float = true.
Proof.
  apply (nominal_strip_is_exact stub_render 0 612 792 "letter" []
           (uniform_strip 220 16) blank
           (process_page stub_render 0 (whole_unit_page 612 792 "letter" []) blank).1).
  - lia.
  - reflexivity.
  - reflexivity.
  - vm_compute. reflexivity.
Defined.

(** Beyond the 220 columns of X9 the last edge can miss: with 25 columns
    on a page 100 units wide the last rectangle ends at 95.00000000000001,
    past the watermark rectangle's right edge at 95. *)
Example last_edge_can_overshoot :
  rx1 (col_rect (watermark_rect narrow_page)
         (col_width_of narrow_page (uniform_strip 25 16)) 24)
  = 0x1.7c00000000001p+6%float
  /\ rx1 (watermark_rect narrow_page) = 95%float.
Proof. split; vm_compute; reflexivity. Qed.

(** ** Where the two rectangles lie *)

Lemma within_x_checked : all_from within_x_check 0 (Z.to_nat 14401) = true.
Proof. vm_compute. reflexivity. Qed.

Lemma within_y_checked : all_from within_y_check 0 (Z.to_nat 14401) = true.
Proof. vm_compute. reflexivity. Qed.

(** X10. The smallest page the geometry fits on.  For a page of whole-unit
    width and height up to 14400, the sampling strip lies on the page
    exactly when the page is at least 115 units wide and 40 units high,
    and the watermark rectangle exactly when it is at least 115 units wide
    and 30 units high; on a smaller page the code rasterises and draws
    partly or wholly off the page. *)
Theorem rectangles_on_page_iff wn hn body drawn :
  0 <= wn <= 14400 ->
  0 <= hn <= 14400 ->
  let pg := whole_unit_page wn hn body drawn in
  rect_within_page (sample_rect pg) pg = (115 <=? wn) && (40 <=? hn)
  /\ rect_within_page (watermark_rect pg) pg = (115 <=? wn) && (30 <=? hn).
Proof.
  intros Hw Hh. cbv zeta.
  pose proof within_x_checked as Hx. pose proof within_y_checked as Hy.
  apply (all_from_spec _ _ _ wn) in Hx; [| lia].
  apply (all_from_spec _ _ _ hn) in Hy; [| lia].
  unfold within_x_check in Hx. unfold within_y_check in Hy.
  cbv zeta in Hx, Hy.
  apply andb_prop in Hx as [Hxs Hxw].
  do 3 (apply andb_prop in Hy as [Hy _]).
  apply andb_prop in Hy as [Hys Hyw].
  apply Bool.eqb_prop in Hxs, Hxw, Hys, Hyw.
  unfold rect_within_page. split.
  - rewrite <- Hxs, <- Hys. reflexivity.
  - rewrite <- Hxw, <- Hyw. reflexivity.
Qed.

(** X11. The strip never touches what it is meant to cover.  For a page
    of whole-unit height up to 14400 and any width, the strip has positive
    height and ends strictly above the top edge of the watermark
    rectangle, which has positive height too; the strip spans the same
    horizontal extent as the rectangle. *)
Theorem strip_above_watermark (width : float) hn body drawn :
  0 <= hn <= 14400 ->
  let pg := mkPage width (float_of_int hn) body drawn in
  (ry0 (sample_rect pg) <? ry1 (sample_rect pg))%float = true
  /\ (ry1 (sample_rect pg) <? ry0 (watermark_rect pg))%float = true
  /\ (ry0 (watermark_rect pg) <? ry1 (watermark_rect pg))%float = true
  /\ rx0 (sample_rect pg) = rx0 (watermark_rect pg)
  /\ rx1 (sample_rect pg) = rx1 (watermark_rect pg).
Proof.
  intros Hh. cbv zeta.
  pose proof within_y_checked as Hy.
  apply (all_from_spec _ _ _ hn) in Hy; [| lia].
  unfold within_y_check in Hy. cbv zeta in Hy.
  apply andb_prop in Hy as [Hy Hwm].
  apply andb_prop in Hy as [Hy Hgap].
  apply andb_prop in Hy as [_ Hstrip].
  split_and!; try assumption; reflexivity.
Qed.

(** X10 on a letter page, which holds both rectangles, and on a page 100
    by 35 units, which holds neither. *)
Lemma letter_page_holds_rectangles :
  rect_within_page (sample_rect (whole_unit_page 612 792 "letter" []))
    (whole_unit_page 612 792 "letter" []) = (115 <=? 612) && (40 <=? 792)
  /\ rect_within_page (watermark_rect (whole_unit_page 612 792 "letter" []))
       (whole_unit_page 612 792 "letter" []) = (115 <=? 612) && (30 <=? 792).
Proof. apply (rectangles_on_page_iff 612 792 "letter" []); lia. Defined.

Example small_page_holds_neither :
  rect_within_page (sample_rect (whole_unit_page 100 35 "" []))
    (whole_unit_page 100 35 "" []) = false
  /\ rect_within_page (watermark_rect (whole_unit_page 100 35 "" []))
       (whole_unit_page 100 35 "" []) = false.
Proof. split; vm_compute; reflexivity. Qed.

(** X11 on a letter page: the strip runs from 752 to 760, the rectangle
    from 762. *)
Lemma letter_strip_above_watermark :
  (ry0 (sample_rect (mkPage 612 (float_of_int 792) "letter" []))
   <? ry1 (sample_rect (mkPage 612 (float_of_int 792) "letter" [])))%float = true
  /\ (ry1 (sample_rect (mkPage 612 (float_of_int 792) "letter" []))
      <? ry0 (watermark_rect (mkPage 612 (float_of_int 792) "letter" [])))%float = true
  /\ (ry0 (watermark_rect (mkPage 612 (float_of_int 792) "letter" []))
      <? ry1 (watermark_rect (mkPage 612 (float_of_int 792) "letter" [])))%float = true
  /\ rx0 (sample_rect (mkPage 612 (float_of_int 792) "letter" []))
     = rx0 (watermark_rect (mkPage 612 (float_of_int 792) "letter" []))
  /\ rx1 (sample_rect (mkPage 612 (float_of_int 792) "letter" []))
     = rx1 (watermark_rect (mkPage 612 (float_of_int 792) "letter" [])).
Proof. apply (strip_above_watermark 612 792 "letter" []); lia. Defined.
